(** * Escrow-Bot: the deal lifecycle engine of [app.py] and [admin_server.py]

    A shallow embedding of the escrow bot's handlers.  The SQLite database
    and the module-level dictionary [_pending_dispute_reason] form the
    state; every handler is a function from a state to a reply and a new
    state.

    Conventions of the embedding:
    - [decimal.Decimal] values are exact rationals ([Q]); the amount column,
      a decimal string written by [str(amt)], is the number it denotes.
      The context precision of 28 digits and the special values (NaN,
      Infinity) are outside the model.
    - timestamps are integers ([Z]), [None]/NULL is [None];
    - the [created_at]/[updated_at] columns, which no handler reads, are
      left out of the rows;
    - a handler receives the operands of its command already split
      ([parts[1]] as a deal id); the [Usage:] replies are transport. *)

From Stdlib Require Import ZArith QArith Lqa String Ascii List Bool Lia.
From stdpp Require Import gmap strings list fin_maps pretty.

Local Open Scope string_scope.
Local Open Scope Z_scope.

(** ** Status values (the [status] columns hold plain strings) *)

Definition CREATED : string := "CREATED".
Definition PENDING_ACCEPT : string := "PENDING_ACCEPT".
Definition AWAIT_FUNDS : string := "AWAIT_FUNDS".
Definition FUNDED : string := "FUNDED".
Definition DISPUTED : string := "DISPUTED".
Definition RELEASED : string := "RELEASED".
Definition CANCELLED : string := "CANCELLED".

Definition OPEN : string := "OPEN".
Definition RESOLVED : string := "RESOLVED".
Definition REVERSED : string := "REVERSED".

(** [RELEASED] and [CANCELLED] are the terminal states of a deal. *)
Definition terminal (s : string) : Prop := s = RELEASED \/ s = CANCELLED.

(** ** Rows *)

Module Deal.
Record t : Type := mk {
  id : Z;
  buyer_id : Z;
  seller_id : Z;
  seller_username : option string;
  asset : string;
  amount : Q;
  fee_bp : Z;
  fee_min_cad_cents : Z;
  fee_max_cad_cents : Z;
  status : string;
  pay_address : option string;
  confirmations : Z;
  required_confs : Z;
  hold_txid : option string;
  release_txid : option string;
  funded_at : option Z;
  auto_finalise_at : option Z;
  seller_payout_address : option string;
  buyer_refund_address : option string
}.

Definition set_seller_id (d : t) (v : Z) : t :=
  mk (id d) (buyer_id d) v (seller_username d) (asset d) (amount d)
     (fee_bp d) (fee_min_cad_cents d) (fee_max_cad_cents d) (status d)
     (pay_address d) (confirmations d) (required_confs d) (hold_txid d)
     (release_txid d) (funded_at d) (auto_finalise_at d)
     (seller_payout_address d) (buyer_refund_address d).

Definition set_status (d : t) (v : string) : t :=
  mk (id d) (buyer_id d) (seller_id d) (seller_username d) (asset d)
     (amount d) (fee_bp d) (fee_min_cad_cents d) (fee_max_cad_cents d) v
     (pay_address d) (confirmations d) (required_confs d) (hold_txid d)
     (release_txid d) (funded_at d) (auto_finalise_at d)
     (seller_payout_address d) (buyer_refund_address d).

Definition set_pay_address (d : t) (v : option string) : t :=
  mk (id d) (buyer_id d) (seller_id d) (seller_username d) (asset d)
     (amount d) (fee_bp d) (fee_min_cad_cents d) (fee_max_cad_cents d)
     (status d) v (confirmations d) (required_confs d) (hold_txid d)
     (release_txid d) (funded_at d) (auto_finalise_at d)
     (seller_payout_address d) (buyer_refund_address d).

Definition set_release_txid (d : t) (v : option string) : t :=
  mk (id d) (buyer_id d) (seller_id d) (seller_username d) (asset d)
     (amount d) (fee_bp d) (fee_min_cad_cents d) (fee_max_cad_cents d)
     (status d) (pay_address d) (confirmations d) (required_confs d)
     (hold_txid d) v (funded_at d) (auto_finalise_at d)
     (seller_payout_address d) (buyer_refund_address d).

Definition set_seller_payout_address (d : t) (v : option string) : t :=
  mk (id d) (buyer_id d) (seller_id d) (seller_username d) (asset d)
     (amount d) (fee_bp d) (fee_min_cad_cents d) (fee_max_cad_cents d)
     (status d) (pay_address d) (confirmations d) (required_confs d)
     (hold_txid d) (release_txid d) (funded_at d) (auto_finalise_at d)
     v (buyer_refund_address d).

Definition set_buyer_refund_address (d : t) (v : option string) : t :=
  mk (id d) (buyer_id d) (seller_id d) (seller_username d) (asset d)
     (amount d) (fee_bp d) (fee_min_cad_cents d) (fee_max_cad_cents d)
     (status d) (pay_address d) (confirmations d) (required_confs d)
     (hold_txid d) (release_txid d) (funded_at d) (auto_finalise_at d)
     (seller_payout_address d) v.

(** The three columns a funding notification writes. *)
Definition set_funding (d : t) (confs : Z) (at_ : Z) (deadline : Z) : t :=
  mk (id d) (buyer_id d) (seller_id d) (seller_username d) (asset d)
     (amount d) (fee_bp d) (fee_min_cad_cents d) (fee_max_cad_cents d)
     (status d) (pay_address d) confs (required_confs d)
     (hold_txid d) (release_txid d) (Some at_) (Some deadline)
     (seller_payout_address d) (buyer_refund_address d).
End Deal.

Module Dispute.
Record t : Type := mk {
  id : Z;
  deal_id : Z;
  opener_id : Z;
  reason : option string;
  status : string;
  loser_id : option Z
}.

(** [disp.status = "RESOLVED"; disp.loser_id = loser_id] *)
Definition resolve (x : t) (loser : Z) : t :=
  mk (id x) (deal_id x) (opener_id x) (reason x) RESOLVED (Some loser).
End Dispute.

(** A Telegram user as the handlers see it: [m.from_user]. *)
Record TgUser : Type := mkUser {
  user_id : Z;
  username : option string
}.

(** ** The state: both tables, as their rows in insertion order, and the
    pending-reason dictionary *)

Record Store : Type := mkStore {
  deals : list Deal.t;
  disputes : list Dispute.t;
  _pending_dispute_reason : gmap Z Z
}.

(** The environment of the process ([os.getenv]) and its collaborators.
    [GRACE_WINDOW] is the specification's "configured grace window"; the
    sources read no such variable. *)
Record Config : Type := mkConfig {
  ADMIN_IDS : list Z;
  FEE_BP : Z;
  FEE_MIN_CAD : Z;
  FEE_MAX_CAD : Z;
  REQUIRED_CONFS : Z;
  (** the grace window of the auto-finalisation deadline *)
  GRACE_WINDOW : Z;
  (** [allocate_deposit_address]: the wallet's answer, or the fallback *)
  allocate_deposit_address : Z -> string
}.

(** ** Python helpers *)

(** Truth value of an optional string: [None] and [""] are false. *)
Definition truthy (o : option string) : bool :=
  match o with
  | Some s => negb (String.eqb s "")
  | None => false
  end.

(** [x or ""] *)
Definition or_empty (o : option string) : string :=
  match o with Some s => s | None => "" end.

(** [str.lower] on the ASCII range. *)
Definition lower_ascii (c : ascii) : ascii :=
  let n := nat_of_ascii c in
  if (65 <=? n)%nat && (n <=? 90)%nat then ascii_of_nat (n + 32) else c.

Fixpoint lower (s : string) : string :=
  match s with
  | EmptyString => EmptyString
  | String c r => String (lower_ascii c) (lower r)
  end.

(** [str.isspace] on the ASCII range: 9-13, 28-31 and the blank. *)
Definition is_space (c : ascii) : bool :=
  let n := nat_of_ascii c in
  ((9 <=? n)%nat && (n <=? 13)%nat) || ((28 <=? n)%nat && (n <=? 32)%nat).

Fixpoint lstrip (s : string) : string :=
  match s with
  | EmptyString => EmptyString
  | String c r => if is_space c then lstrip r else s
  end.

Fixpoint rstrip (s : string) : string :=
  match s with
  | EmptyString => EmptyString
  | String c r =>
      match rstrip r with
      | EmptyString => if is_space c then EmptyString else String c EmptyString
      | r' => String c r'
      end
  end.

Definition strip (s : string) : string := rstrip (lstrip s).

(** Comparisons of decimals as booleans. *)
Definition Qlt_bool (x y : Q) : bool := negb (Qle_bool y x).

Lemma Qlt_bool_iff (x y : Q) : Qlt_bool x y = true <-> (x < y)%Q.
Proof.
  unfold Qlt_bool. rewrite negb_true_iff.
  split; intros H.
  - apply Qnot_le_lt. intros Hle. apply Qle_bool_iff in Hle. congruence.
  - destruct (Qle_bool y x) eqn:E; [|reflexivity].
    apply Qle_bool_iff in E. exfalso. apply (Qlt_not_le _ _ H), E.
Qed.

Lemma Qlt_bool_false_iff (x y : Q) : Qlt_bool x y = false <-> (y <= x)%Q.
Proof.
  unfold Qlt_bool. rewrite negb_false_iff. apply Qle_bool_iff.
Qed.

Lemma Qle_bool_false_iff (x y : Q) : Qle_bool x y = false <-> (y < x)%Q.
Proof.
  rewrite <- Qlt_bool_iff. unfold Qlt_bool.
  destruct (Qle_bool x y); simpl; split; congruence.
Qed.

(** ** Fee engine *)

(** [cad_to_asset_units_stub]: "DEV: return 0 so we only apply percentage
    for now". *)
Definition cad_to_asset_units_stub (asset : string) (cad_cents : Z) : Q := 0%Q.

Section FeeEngine.
(** The body of [compute_service_fee_asset_units], over the conversion
    of a bound in CAD cents to asset units. *)
Variable cad_to_asset_units : string -> Z -> Q.

Definition service_fee_by (asset : string) (amount_units : Q)
    (deal : Deal.t) : Q :=
  let pct := (inject_Z (Deal.fee_bp deal) / inject_Z 10000)%Q in
  let fee_calc := (amount_units * pct)%Q in
  let min_units := cad_to_asset_units asset (Deal.fee_min_cad_cents deal) in
  let max_units := cad_to_asset_units asset (Deal.fee_max_cad_cents deal) in
  let fee_calc :=
    if Qlt_bool 0 min_units && Qlt_bool fee_calc min_units
    then min_units else fee_calc in
  let fee_calc :=
    if Qlt_bool 0 max_units && Qlt_bool max_units fee_calc
    then max_units else fee_calc in
  fee_calc.
End FeeEngine.

Definition compute_service_fee_asset_units (asset : string) (amount_units : Q)
    (deal : Deal.t) : Q :=
  service_fee_by cad_to_asset_units_stub asset amount_units deal.


Definition SIMULATED_NETWORK_FEE_ASSET_UNITS : Q := 0%Q.

(** ** Storage: the session over both tables *)

(** [sess.get(Deal, deal_id)] *)
Definition get_deal (sess : Store) (deal_id : Z) : option Deal.t :=
  find (fun r => Deal.id r =? deal_id) (deals sess).

(** [sess.commit()] after the loaded row [d] was changed in place. *)
Definition commit (d : Deal.t) (sess : Store) : Store :=
  mkStore
    (map (fun r => if Deal.id r =? Deal.id d then d else r) (deals sess))
    (disputes sess) (_pending_dispute_reason sess).

(** The next value of an INTEGER PRIMARY KEY: one more than the largest. *)
Definition next_id (ids : list Z) : Z := 1 + fold_right Z.max 0 ids.

(** [sess.add(d); sess.commit()] for a new deal. *)
Definition add_deal (d : Deal.t) (sess : Store) : Store :=
  mkStore (deals sess ++ [d]) (disputes sess) (_pending_dispute_reason sess).

(** [sess.add(disp)] *)
Definition add_dispute (x : Dispute.t) (sess : Store) : Store :=
  mkStore (deals sess) (disputes sess ++ [x]) (_pending_dispute_reason sess).

Definition set_pending (p : gmap Z Z) (sess : Store) : Store :=
  mkStore (deals sess) (disputes sess) p.

(** [WHERE deal_id = :id AND status = 'OPEN'] *)
Definition is_open_for (deal_id : Z) (x : Dispute.t) : bool :=
  (Dispute.deal_id x =? deal_id) && String.eqb (Dispute.status x) OPEN.

Definition open_disputes (sess : Store) (deal_id : Z) : list Dispute.t :=
  filter (fun x => is_open_for deal_id x = true) (disputes sess).

(** [select(Dispute).where(...).scalars().first()] *)
Definition first_open_dispute (sess : Store) (deal_id : Z) : option Dispute.t :=
  find (is_open_for deal_id) (disputes sess).

(** The row found by [first_open_dispute] written back as resolved. *)
Fixpoint resolve_first_open (deal_id loser : Z) (l : list Dispute.t)
    : list Dispute.t :=
  match l with
  | [] => []
  | x :: r =>
      if is_open_for deal_id x then Dispute.resolve x loser :: r
      else x :: resolve_first_open deal_id loser r
  end.

Definition set_disputes (l : list Dispute.t) (sess : Store) : Store :=
  mkStore (deals sess) l (_pending_dispute_reason sess).

(** ** Replies *)

Inductive Error : Type :=
| NotFound              (* "Deal not found." *)
| Forbidden             (* "Only the ... can ...", "You are not a party ..." *)
| InvalidState          (* "Deal is ...", "Only unfunded deals ...", 400/409 *)
| InvalidAmount         (* "Amount must be a positive number" *)
| InvalidTag            (* "Please provide a seller mention like @username." *)
| MissingPayoutAddress  (* "Seller has not set a payout address yet." *)
| NonPositivePayout     (* "Computed payout is non-positive" *)
| InvalidSplit          (* "split_pct must be between 0 and 100" *)
| UnknownAction         (* "Unknown action" *)
| DuplicateDispute      (* in the specification's taxonomy; no handler sends it *)
| Unauthorized.         (* 401, "Login required" *)

Inductive Reply : Type :=
| Created (deal_id : Z)
| Accepted
| Declined
| StatusShown (d : Deal.t)
| AutoFinalised
| AmountConfirmed
| PayoutSet
| Finalised (gross service_fee network_fee payout_to_seller : Q)
| Cancelled
| AwaitingReason
| NotCollecting
| DisputeOpened
| Resolved
| Funded
| Online
| Failed (e : Error).

(** A reply that reports a completed operation. *)
Definition succeeded (r : Reply) : Prop :=
  match r with Failed _ => False | _ => True end.

(** ** Party resolver *)

(** The handle test of [ensure_party]:
    [uname and ("@" + uname).lower() == deal.seller_username.lower()] *)
Definition handle_matches (user : TgUser) (deal : Deal.t) : bool :=
  let uname := strip (or_empty (username user)) in
  negb (String.eqb uname "")
  && String.eqb (lower ("@" ++ uname))
                (lower (or_empty (Deal.seller_username deal))).

(** [ensure_party]: the answer, the row as the caller now holds it, and the
    session after the possible commit. *)
Definition ensure_party (sess : Store) (user : TgUser) (deal : Deal.t)
    : bool * Deal.t * Store :=
  let uid := user_id user in
  if (uid =? Deal.buyer_id deal) || (uid =? Deal.seller_id deal) then
    (true, deal, sess)
  else if (Deal.seller_id deal =? 0) && truthy (Deal.seller_username deal) then
    if handle_matches user deal then
      let deal' := Deal.set_seller_id deal uid in
      (true, deal', commit deal' sess)
    else (false, deal, sess)
  else (false, deal, sess).

(** The guard of the seller's commands:
    [ensure_party(sess, m.from_user, d) and m.from_user.id == d.seller_id] *)
Definition seller_check (sess : Store) (user : TgUser) (deal : Deal.t)
    : bool * Deal.t * Store :=
  let '(ok, d, sess') := ensure_party sess user deal in
  (ok && (user_id user =? Deal.seller_id d), d, sess').

(** Modelled from the spec: [is_admin], which [cancel_cmd] calls, is not
    defined in the sources; an admin is a user whose id is in [ADMIN_IDS]. *)
Definition is_admin (cfg : Config) (uid : Z) : bool :=
  existsb (Z.eqb uid) (ADMIN_IDS cfg).

(** ** Handlers of [app.py] *)

Definition parse_amount (txt : option Q) : option Q :=
  match txt with
  | Some d => if Qle_bool d 0 then None else Some d
  | None => None
  end.

(** [seller_tag.startswith("@") and len(seller_tag) >= 2] *)
Definition well_formed_tag (seller_tag : string) : bool :=
  match seller_tag with
  | String "@" (String _ _) => true
  | _ => false
  end.

Definition newdeal_cmd (cfg : Config) (user : TgUser) (seller_tag : string)
    (amount_txt : option Q) (sess : Store) : Reply * Store :=
  if negb (well_formed_tag seller_tag) then (Failed InvalidTag, sess)
  else
    match parse_amount amount_txt with
    | None => (Failed InvalidAmount, sess)
    | Some amt =>
        let deal_id := next_id (map Deal.id (deals sess)) in
        let d := Deal.mk deal_id (user_id user) 0 (Some seller_tag) "BTC" amt
                   (FEE_BP cfg) (FEE_MIN_CAD cfg) (FEE_MAX_CAD cfg)
                   PENDING_ACCEPT None 0 (REQUIRED_CONFS cfg) None None
                   None None None None in
        (Created deal_id, add_deal d sess)
    end.

Definition accept_cmd (cfg : Config) (user : TgUser) (deal_id : Z)
    (sess : Store) : Reply * Store :=
  match get_deal sess deal_id with
  | None => (Failed NotFound, sess)
  | Some d =>
      let '(ok, d, sess) := seller_check sess user d in
      if negb ok then (Failed Forbidden, sess)
      else if negb (String.eqb (Deal.status d) PENDING_ACCEPT) then
        (Failed InvalidState, sess)
      else
        let d := Deal.set_status d AWAIT_FUNDS in
        let d := Deal.set_pay_address d
                   (Some (allocate_deposit_address cfg (Deal.id d))) in
        (Accepted, commit d sess)
  end.

(** [/start accept_<id>]: the deep link accepts when it can and shows the
    banner otherwise. *)
Definition start_cmd (cfg : Config) (user : TgUser) (deal_id : Z)
    (sess : Store) : Reply * Store :=
  match get_deal sess deal_id with
  | None => (Online, sess)
  | Some d =>
      let '(ok, d, sess) := seller_check sess user d in
      if ok && String.eqb (Deal.status d) PENDING_ACCEPT then
        let d := Deal.set_status d AWAIT_FUNDS in
        let d := Deal.set_pay_address d
                   (Some (allocate_deposit_address cfg (Deal.id d))) in
        (Accepted, commit d sess)
      else (Online, sess)
  end.

Definition decline_cmd (user : TgUser) (deal_id : Z) (sess : Store)
    : Reply * Store :=
  match get_deal sess deal_id with
  | None => (Failed NotFound, sess)
  | Some d =>
      let '(ok, d, sess) := seller_check sess user d in
      if negb ok then (Failed Forbidden, sess)
      else if negb (String.eqb (Deal.status d) PENDING_ACCEPT
                    || String.eqb (Deal.status d) AWAIT_FUNDS) then
        (Failed InvalidState, sess)
      else
        let d :=
          if String.eqb (Deal.status d) AWAIT_FUNDS
          then Deal.set_status d CANCELLED
          else Deal.set_status d CANCELLED in
        (Declined, commit d sess)
  end.

(** [maybe_autofinalise], [now] being [datetime.utcnow()]. *)
Definition maybe_autofinalise (now : Z) (sess : Store) (d : Deal.t)
    : bool * Deal.t * Store :=
  match Deal.auto_finalise_at d with
  | Some deadline =>
      if String.eqb (Deal.status d) FUNDED && (deadline <=? now) then
        match first_open_dispute sess (Deal.id d) with
        | Some _ => (false, d, sess)
        | None =>
            let d := Deal.set_status d RELEASED in
            let d := Deal.set_release_txid d None in
            (true, d, commit d sess)
        end
      else (false, d, sess)
  | None => (false, d, sess)
  end.

Definition status_cmd (now : Z) (user : TgUser) (deal_id : Z) (sess : Store)
    : Reply * Store :=
  match get_deal sess deal_id with
  | None => (Failed NotFound, sess)
  | Some d =>
      let '(ok, d, sess) := ensure_party sess user d in
      if negb ok then (Failed Forbidden, sess)
      else
        let '(fired, d, sess) := maybe_autofinalise now sess d in
        if fired then (AutoFinalised, sess)
        else (StatusShown d, sess)
  end.

Definition confirm_amount_cmd (user : TgUser) (deal_id : Z) (sess : Store)
    : Reply * Store :=
  match get_deal sess deal_id with
  | None => (Failed NotFound, sess)
  | Some d =>
      let '(ok, d, sess) := seller_check sess user d in
      if negb ok then (Failed Forbidden, sess)
      else if negb (String.eqb (Deal.status d) FUNDED) then
        (Failed InvalidState, sess)
      else (AmountConfirmed, sess)
  end.

Definition setpayout_cmd (user : TgUser) (deal_id : Z) (addr : string)
    (sess : Store) : Reply * Store :=
  match get_deal sess deal_id with
  | None => (Failed NotFound, sess)
  | Some d =>
      let '(ok, d, sess) := seller_check sess user d in
      if negb ok then (Failed Forbidden, sess)
      else (PayoutSet, commit (Deal.set_seller_payout_address d (Some addr)) sess)
  end.

Definition finalise_cmd (caller : Z) (deal_id : Z) (sess : Store)
    : Reply * Store :=
  match get_deal sess deal_id with
  | None => (Failed NotFound, sess)
  | Some d =>
      if negb (String.eqb (Deal.status d) FUNDED) then
        (Failed InvalidState, sess)
      else if negb (caller =? Deal.buyer_id d) then (Failed Forbidden, sess)
      else if negb (truthy (Deal.seller_payout_address d)) then
        (Failed MissingPayoutAddress, sess)
      else
        let amt := Deal.amount d in
        let service_fee := compute_service_fee_asset_units (Deal.asset d) amt d in
        let network_fee := SIMULATED_NETWORK_FEE_ASSET_UNITS in
        let payout_to_seller := (amt - service_fee - network_fee)%Q in
        if Qle_bool payout_to_seller 0 then (Failed NonPositivePayout, sess)
        else
          let d := Deal.set_status d RELEASED in
          let d := Deal.set_release_txid d None in
          (Finalised amt service_fee network_fee payout_to_seller,
           commit d sess)
  end.

Definition cancel_cmd (cfg : Config) (caller : Z) (deal_id : Z) (sess : Store)
    : Reply * Store :=
  match get_deal sess deal_id with
  | None => (Failed NotFound, sess)
  | Some d =>
      if negb (String.eqb (Deal.status d) AWAIT_FUNDS
               || String.eqb (Deal.status d) CREATED) then
        (Failed InvalidState, sess)
      else if negb (caller =? Deal.buyer_id d) && negb (is_admin cfg caller) then
        (Failed Forbidden, sess)
      else (Cancelled, commit (Deal.set_status d CANCELLED) sess)
  end.

Definition dispute_cmd (user : TgUser) (deal_id : Z) (refund_addr : string)
    (sess : Store) : Reply * Store :=
  match get_deal sess deal_id with
  | None => (Failed NotFound, sess)
  | Some d =>
      let '(ok, d, sess) := ensure_party sess user d in
      if negb ok then (Failed Forbidden, sess)
      else if negb (String.eqb (Deal.status d) FUNDED) then
        (Failed InvalidState, sess)
      else
        let sess := commit (Deal.set_buyer_refund_address d (Some refund_addr))
                      sess in
        (AwaitingReason,
         set_pending (<[user_id user := deal_id]> (_pending_dispute_reason sess))
                     sess)
  end.

(** [m.caption or m.text or "(no text)"] *)
Definition reason_of (caption text : option string) : string :=
  if truthy caption then or_empty caption
  else if truthy text then or_empty text
  else "(no text)".

Definition collect_dispute_reason (user : TgUser) (caption text : option string)
    (sess : Store) : Reply * Store :=
  let uid := user_id user in
  match _pending_dispute_reason sess !! uid with
  | None => (NotCollecting, sess)
  | Some deal_id =>
      let sess := set_pending (delete uid (_pending_dispute_reason sess)) sess in
      let reason_text := reason_of caption text in
      match get_deal sess deal_id with
      | None => (Failed NotFound, sess)
      | Some d =>
          let '(ok, d, sess) := ensure_party sess user d in
          if negb ok then (Failed Forbidden, sess)
          else
            let disp := Dispute.mk (next_id (map Dispute.id (disputes sess)))
                          deal_id uid (Some reason_text) OPEN None in
            let d := Deal.set_status d DISPUTED in
            (DisputeOpened, add_dispute disp (commit d sess))
      end
  end.

(** ** Handlers of [admin_server.py] *)

(** [f"admin-panel-{kind}-{deal_id}"] *)
Definition admin_txid (kind : string) (deal_id : Z) : string :=
  "admin-panel-" ++ kind ++ "-" ++ pretty deal_id.

(** [if disp: disp.status = "RESOLVED"; disp.loser_id = loser_id] *)
Definition close_dispute (disp : option Dispute.t) (deal_id loser_id : Z)
    (s : Store) : Store :=
  match disp with
  | Some _ => set_disputes (resolve_first_open deal_id loser_id (disputes s)) s
  | None => s
  end.

Definition offer_cancel (auth : bool) (deal_id : Z) (s : Store)
    : Reply * Store :=
  if negb auth then (Failed Unauthorized, s)
  else
    match get_deal s deal_id with
    | None => (Failed NotFound, s)
    | Some d =>
        if negb (String.eqb (Deal.status d) PENDING_ACCEPT) then
          (Failed InvalidState, s)
        else (Cancelled, commit (Deal.set_status d CANCELLED) s)
    end.

(** The two sides of a split: [amt * (sp / 100)] and the remainder. *)
Definition seller_share (amt sp : Q) : Q := (amt * (sp / 100))%Q.
Definition buyer_share (amt sp : Q) : Q := (amt - seller_share amt sp)%Q.

(** "loser heuristic: the smaller monetary side loses" *)
Definition split_loser (d : Deal.t) (sp : Q) : Z :=
  let amt := Deal.amount d in
  if Qlt_bool (buyer_share amt sp) (seller_share amt sp)
  then Deal.buyer_id d else Deal.seller_id d.

(** [deal_resolve]; [auth] is the [require_login] dependency and [split_pct]
    the value of [decimal.Decimal(split_pct or "")], [None] when the
    constructor raises. *)
Definition deal_resolve (auth : bool) (deal_id : Z) (action : string)
    (split_pct : option Q) (s : Store) : Reply * Store :=
  if negb auth then (Failed Unauthorized, s)
  else
    match get_deal s deal_id with
    | None => (Failed NotFound, s)
    | Some d =>
        if negb (String.eqb (Deal.status d) FUNDED
                 || String.eqb (Deal.status d) DISPUTED) then
          (Failed InvalidState, s)
        else
          let disp := first_open_dispute s deal_id in
          if String.eqb action "release" then
            let d := Deal.set_status d RELEASED in
            let d := Deal.set_release_txid d
                       (Some (admin_txid "release" deal_id)) in
            let loser_id := Deal.buyer_id d in
            (Resolved, close_dispute disp deal_id loser_id (commit d s))
          else if String.eqb action "refund" then
            let d := Deal.set_status d CANCELLED in
            let d := Deal.set_release_txid d
                       (Some (admin_txid "refund" deal_id)) in
            let loser_id := Deal.seller_id d in
            (Resolved, close_dispute disp deal_id loser_id (commit d s))
          else if String.eqb action "split" then
            match split_pct with
            | None => (Failed InvalidSplit, s)
            | Some sp =>
                if Qle_bool sp 0 || Qle_bool 100 sp then
                  (Failed InvalidSplit, s)
                else
                  let d := Deal.set_status d
                             (if Qlt_bool 0 sp then "RELEASEED"
                              else Deal.status d) in
                  let d := Deal.set_status d RELEASED in
                  let d := Deal.set_release_txid d
                             (Some (admin_txid "split" deal_id)) in
                  let loser_id := split_loser d sp in
                  (Resolved, close_dispute disp deal_id loser_id (commit d s))
            end
          else (Failed UnknownAction, s)
    end.

(** ** Funding notification *)

(** Modelled from the spec: [MarkFunded(deal, confirmations)], the wallet
    collaborator's trigger, has no handler in the sources (the section
    "Admin: mark deal as funded" of [app.py] is empty).  From AWAIT_FUNDS,
    once the confirmations reach the deal's threshold, the deal becomes
    FUNDED, the funded timestamp is set and the auto-finalise deadline is
    the funded timestamp plus the configured grace window. *)
Definition mark_funded (cfg : Config) (now : Z) (deal_id : Z)
    (confirmations : Z) (sess : Store) : Reply * Store :=
  match get_deal sess deal_id with
  | None => (Failed NotFound, sess)
  | Some d =>
      if negb (String.eqb (Deal.status d) AWAIT_FUNDS) then
        (Failed InvalidState, sess)
      else if confirmations <? Deal.required_confs d then
        (Failed InvalidState, sess)
      else
        let d := Deal.set_status d FUNDED in
        let d := Deal.set_funding d confirmations now (now + GRACE_WINDOW cfg) in
        (Funded, commit d sess)
  end.

(** ** The engine as a transition system *)

Inductive Command : Type :=
| Offer (user : TgUser) (seller_tag : string) (amount_txt : option Q)
| Start (user : TgUser) (deal_id : Z)
| Accept (user : TgUser) (deal_id : Z)
| Decline (user : TgUser) (deal_id : Z)
| GetStatus (user : TgUser) (deal_id : Z)
| ConfirmAmount (user : TgUser) (deal_id : Z)
| SetPayout (user : TgUser) (deal_id : Z) (addr : string)
| Finalise (caller : Z) (deal_id : Z)
| CancelUnfunded (caller : Z) (deal_id : Z)
| OpenDispute (user : TgUser) (deal_id : Z) (refund_addr : string)
| CollectReason (user : TgUser) (caption text : option string)
| OfferCancel (auth : bool) (deal_id : Z)
| Resolve (auth : bool) (deal_id : Z) (action : string) (split_pct : option Q)
| MarkFunded (deal_id : Z) (confirmations : Z).

(** One request served at time [now]. *)
Definition step (cfg : Config) (now : Z) (c : Command) (s : Store)
    : Reply * Store :=
  match c with
  | Offer u tag amt => newdeal_cmd cfg u tag amt s
  | Start u i => start_cmd cfg u i s
  | Accept u i => accept_cmd cfg u i s
  | Decline u i => decline_cmd u i s
  | GetStatus u i => status_cmd now u i s
  | ConfirmAmount u i => confirm_amount_cmd u i s
  | SetPayout u i a => setpayout_cmd u i a s
  | Finalise c i => finalise_cmd c i s
  | CancelUnfunded c i => cancel_cmd cfg c i s
  | OpenDispute u i a => dispute_cmd u i a s
  | CollectReason u cap txt => collect_dispute_reason u cap txt s
  | OfferCancel a i => offer_cancel a i s
  | Resolve a i act pct => deal_resolve a i act pct s
  | MarkFunded i n => mark_funded cfg now i n s
  end.

(** A run: requests served in order, each at its own time. *)
Fixpoint run (cfg : Config) (cs : list (Z * Command)) (s : Store) : Store :=
  match cs with
  | [] => s
  | (now, c) :: r => run cfg r (snd (step cfg now c s))
  end.

(** ** Relations between the states of a deal *)

(** Every deal of [s] is still there in [s'], related by [R]. *)
Definition evolves (R : Deal.t -> Deal.t -> Prop) (s s' : Store) : Prop :=
  forall k d, get_deal s k = Some d ->
              exists d', get_deal s' k = Some d' /\ R d d'.

(** Identity and buyer never change, and a bound seller stays bound. *)
Definition bound_kept (d d' : Deal.t) : Prop :=
  Deal.id d' = Deal.id d /\ Deal.buyer_id d' = Deal.buyer_id d /\
  (Deal.seller_id d <> 0 -> Deal.seller_id d' = Deal.seller_id d).

(** A terminal status stays. *)
Definition final_kept (d d' : Deal.t) : Prop :=
  terminal (Deal.status d) -> Deal.status d' = Deal.status d.

Definition kept (d d' : Deal.t) : Prop := bound_kept d d' /\ final_kept d d'.

Class Preorder (R : Deal.t -> Deal.t -> Prop) : Prop := {
  pre_refl : forall d, R d d;
  pre_trans : forall a b c, R a b -> R b c -> R a c
}.

(** The deal is due: FUNDED, past its deadline, and not under dispute. *)
Definition due (now : Z) (s : Store) (d : Deal.t) : Prop :=
  Deal.status d = FUNDED
  /\ (exists t, Deal.auto_finalise_at d = Some t /\ t <= now)
  /\ open_disputes s (Deal.id d) = [].

(** ** A concrete deployment, for the examples *)

Fixpoint zeros (n : nat) : string :=
  match n with
  | O => ""
  | S k => String "0" (zeros k)
  end.

(** [f"{n:08d}"] *)
Definition format_08d (n : Z) : string :=
  if n <? 0 then
    let digits := pretty (- n) in
    "-" ++ zeros (7 - String.length digits) ++ digits
  else
    let digits := pretty n in
    zeros (8 - String.length digits) ++ digits.

Definition allocate_deposit_address_sync_fallback (deal_id : Z) : string :=
  "bc1qescrow" ++ format_08d deal_id ++ "xyz".

(** The defaults of the environment, one admin (900), a one-day grace
    window, and no wallet daemon. *)
Definition cfg0 : Config :=
  mkConfig [900] 150 300 15000 1 86400 allocate_deposit_address_sync_fallback.

Definition bob : TgUser := mkUser 1 (Some "bob").

Definition alice : TgUser := mkUser 2 (Some "Alice").

(** A third user who shows the seller's handle. *)
Definition mallory : TgUser := mkUser 3 (Some "alice").

Definition empty_store : Store := mkStore [] [] ∅.

(** Bob offers 0.01 BTC to "@alice" at time 10. *)
Definition offered : Store :=
  run cfg0 [(10, Offer bob "@alice" (Some (1 # 100)%Q))] empty_store.

(** The deal of the scenario as the offer leaves it. *)
Definition offered_deal : Deal.t :=
  Deal.mk 1 1 0 (Some "@alice") "BTC" (1 # 100)%Q 150 300 15000
    PENDING_ACCEPT None 0 1 None None None None None None.

(** Alice accepts at 20 and the deposit is confirmed at 30. *)
Definition funded : Store :=
  run cfg0 [(20, Accept alice 1); (30, MarkFunded 1 1)] offered.

(** Alice gives her payout address at 40. *)
Definition payable : Store :=
  run cfg0 [(40, SetPayout alice 1 "bc1qalice")] funded.

(** The deal of this scenario once it is payable. *)
Definition payable_deal : Deal.t :=
  Deal.mk 1 1 2 (Some "@alice") "BTC" (1 # 100)%Q 150 300 15000 FUNDED
    (Some "bc1qescrow00000001xyz") 1 1 None None (Some 30) (Some 86430)
    (Some "bc1qalice") None.

(** Bob disputes the funded deal at 50 and sends his reason at 51. *)
Definition disputed : Store :=
  run cfg0 [(50, OpenDispute bob 1 "bc1qbob");
            (51, CollectReason bob None (Some "item never arrived"))] funded.

Definition disputed_deal : Deal.t :=
  Deal.mk 1 1 2 (Some "@alice") "BTC" (1 # 100)%Q 150 300 15000 DISPUTED
    (Some "bc1qescrow00000001xyz") 1 1 None None (Some 30) (Some 86430)
    None (Some "bc1qbob").


(** Bob asks for a dispute at 50; the admin releases the deal at 60. *)
Definition released_with_slot : Store :=
  run cfg0 [(50, OpenDispute bob 1 "bc1qbob");
            (60, Resolve true 1 "release" None)] funded.

(** ** The handlers as a relation on rows *)

(** The user a request comes from, where the handler asks the party
    resolver. *)
Definition party_of (c : Command) : option TgUser :=
  match c with
  | Start u _ | Accept u _ | Decline u _ | GetStatus u _
  | ConfirmAmount u _ | SetPayout u _ _ | OpenDispute u _ _
  | CollectReason u _ _ => Some u
  | _ => None
  end.

(** What [ensure_party] may write to the row it is given. *)
Inductive binds (u : TgUser) : Deal.t -> Deal.t -> Prop :=
| binds_nothing d : binds u d d
| binds_seller d :
    Deal.seller_id d = 0 -> user_id u <> Deal.buyer_id d ->
    user_id u <> 0 -> handle_matches u d = true ->
    binds u d (Deal.set_seller_id d (user_id u)).

Definition resolves (c : Command) (d d1 : Deal.t) : Prop :=
  match party_of c with
  | Some u => binds u d d1
  | None => d1 = d
  end.

(** What a handler may write to the row once the party resolver is done:
    one constructor for each assignment sequence of the sources. *)
Inductive acts (cfg : Config) (now : Z) (s : Store)
    : Command -> Deal.t -> Deal.t -> Prop :=
| acts_nothing c d : acts cfg now s c d d
| acts_start u i d :
    Deal.status d = PENDING_ACCEPT -> user_id u = Deal.seller_id d ->
    acts cfg now s (Start u i) d
      (Deal.set_pay_address (Deal.set_status d AWAIT_FUNDS)
         (Some (allocate_deposit_address cfg (Deal.id d))))
| acts_accept u i d :
    Deal.status d = PENDING_ACCEPT -> user_id u = Deal.seller_id d ->
    acts cfg now s (Accept u i) d
      (Deal.set_pay_address (Deal.set_status d AWAIT_FUNDS)
         (Some (allocate_deposit_address cfg (Deal.id d))))
| acts_decline u i d :
    Deal.status d = PENDING_ACCEPT \/ Deal.status d = AWAIT_FUNDS ->
    user_id u = Deal.seller_id d ->
    acts cfg now s (Decline u i) d (Deal.set_status d CANCELLED)
| acts_autofinalise u i d :
    due now s d ->
    acts cfg now s (GetStatus u i) d
      (Deal.set_release_txid (Deal.set_status d RELEASED) None)
| acts_setpayout u i a d :
    user_id u = Deal.seller_id d ->
    acts cfg now s (SetPayout u i a) d
      (Deal.set_seller_payout_address d (Some a))
| acts_finalise caller i d :
    Deal.status d = FUNDED -> caller = Deal.buyer_id d ->
    truthy (Deal.seller_payout_address d) = true ->
    (compute_service_fee_asset_units (Deal.asset d) (Deal.amount d) d
     < Deal.amount d)%Q ->
    acts cfg now s (Finalise caller i) d
      (Deal.set_release_txid (Deal.set_status d RELEASED) None)
| acts_cancel caller i d :
    Deal.status d = AWAIT_FUNDS \/ Deal.status d = CREATED ->
    caller = Deal.buyer_id d \/ is_admin cfg caller = true ->
    acts cfg now s (CancelUnfunded caller i) d (Deal.set_status d CANCELLED)
| acts_dispute u i a d :
    Deal.status d = FUNDED ->
    user_id u = Deal.buyer_id d \/ user_id u = Deal.seller_id d ->
    acts cfg now s (OpenDispute u i a) d
      (Deal.set_buyer_refund_address d (Some a))
| acts_collect u cap txt d :
    user_id u = Deal.buyer_id d \/ user_id u = Deal.seller_id d ->
    _pending_dispute_reason s !! user_id u = Some (Deal.id d) ->
    acts cfg now s (CollectReason u cap txt) d (Deal.set_status d DISPUTED)
| acts_offer_cancel i d :
    Deal.status d = PENDING_ACCEPT ->
    acts cfg now s (OfferCancel true i) d (Deal.set_status d CANCELLED)
| acts_release i pct d :
    Deal.status d = FUNDED \/ Deal.status d = DISPUTED ->
    acts cfg now s (Resolve true i "release" pct) d
      (Deal.set_release_txid (Deal.set_status d RELEASED)
         (Some (admin_txid "release" i)))
| acts_refund i pct d :
    Deal.status d = FUNDED \/ Deal.status d = DISPUTED ->
    acts cfg now s (Resolve true i "refund" pct) d
      (Deal.set_release_txid (Deal.set_status d CANCELLED)
         (Some (admin_txid "refund" i)))
| acts_split i sp d :
    Deal.status d = FUNDED \/ Deal.status d = DISPUTED ->
    (0 < sp)%Q -> (sp < 100)%Q ->
    acts cfg now s (Resolve true i "split" (Some sp)) d
      (Deal.set_release_txid (Deal.set_status d RELEASED)
         (Some (admin_txid "split" i)))
| acts_funded i n d :
    Deal.status d = AWAIT_FUNDS -> Deal.required_confs d <= n ->
    acts cfg now s (MarkFunded i n) d
      (Deal.set_funding (Deal.set_status d FUNDED) n now
         (now + GRACE_WINDOW cfg)).

(** The row a new offer adds. *)
Definition offer_row (cfg : Config) (s : Store) (u : TgUser)
    (seller_tag : string) (amt : Q) : Deal.t :=
  Deal.mk (next_id (map Deal.id (deals s))) (user_id u) 0 (Some seller_tag)
    "BTC" amt (FEE_BP cfg) (FEE_MIN_CAD cfg) (FEE_MAX_CAD cfg)
    PENDING_ACCEPT None 0 (REQUIRED_CONFS cfg) None None None None None None.

(** What one request does to the deals table: nothing, one new row, or one
    loaded row written back. *)
Inductive deals_step (cfg : Config) (now : Z) (c : Command) (s s' : Store)
    : Prop :=
| deals_same : deals s' = deals s -> deals_step cfg now c s s'
| deals_new u tag txt amt :
    c = Offer u tag txt -> well_formed_tag tag = true ->
    parse_amount txt = Some amt ->
    deals s' = (deals s ++ [offer_row cfg s u tag amt])%list ->
    deals_step cfg now c s s'
| deals_update i d d1 d2 :
    get_deal s i = Some d -> resolves c d d1 -> acts cfg now s c d1 d2 ->
    deals s' = map (fun r => if Deal.id r =? i then d2 else r) (deals s) ->
    deals_step cfg now c s s'.

(** The edges of the status graph the handlers of the sources draw. *)
Definition transition (a b : string) : Prop :=
  (a = PENDING_ACCEPT /\ (b = AWAIT_FUNDS \/ b = CANCELLED))
  \/ (a = AWAIT_FUNDS /\ b = CANCELLED)
  \/ (a = CREATED /\ b = CANCELLED)
  \/ (a = FUNDED /\ (b = RELEASED \/ b = CANCELLED))
  \/ (a = DISPUTED /\ (b = RELEASED \/ b = CANCELLED)).

(** The requests the sources handle; the funding notification is not one. *)
Definition from_sources (c : Command) : Prop :=
  match c with
  | MarkFunded _ _ => False
  | _ => True
  end.

(** The terms of a deal: what the offer fixed. *)
Definition same_terms (d d' : Deal.t) : Prop :=
  Deal.id d' = Deal.id d /\ Deal.buyer_id d' = Deal.buyer_id d
  /\ Deal.seller_username d' = Deal.seller_username d
  /\ Deal.asset d' = Deal.asset d /\ Deal.amount d' = Deal.amount d
  /\ Deal.fee_bp d' = Deal.fee_bp d
  /\ Deal.fee_min_cad_cents d' = Deal.fee_min_cad_cents d
  /\ Deal.fee_max_cad_cents d' = Deal.fee_max_cad_cents d
  /\ Deal.required_confs d' = Deal.required_confs d
  /\ Deal.hold_txid d' = Deal.hold_txid d.

(** The offers of a run come from users with an id other than 0. *)
Definition offers_by_users (cs : list (Z * Command)) : Prop :=
  forall now u tag txt, In (now, Offer u tag txt) cs -> user_id u <> 0.

(** The six statuses the handlers write. *)
Definition known_status (st : string) : Prop :=
  st = PENDING_ACCEPT \/ st = AWAIT_FUNDS \/ st = FUNDED \/ st = DISPUTED
  \/ st = RELEASED \/ st = CANCELLED.

(** What holds of every deal the engine has stored. *)
Definition deal_ok (d : Deal.t) : Prop :=
  (0 < Deal.amount d)%Q
  /\ (exists tag, Deal.seller_username d = Some tag
                  /\ well_formed_tag tag = true)
  /\ known_status (Deal.status d)
  /\ Deal.buyer_id d <> 0
  /\ Deal.buyer_id d <> Deal.seller_id d
  /\ 1 <= Deal.id d.

(** * Properties *)

(** ** Storage lemmas *)

Lemma get_deal_id (s : Store) (k : Z) (d : Deal.t) :
  get_deal s k = Some d -> Deal.id d = k.
Proof.
  unfold get_deal. intros H. apply find_some in H as [_ H]. lia.
Qed.

Lemma find_replace (k : Z) (d : Deal.t) (l : list Deal.t) :
  find (fun r => Deal.id r =? k)
       (map (fun r => if Deal.id r =? Deal.id d then d else r) l)
  = if k =? Deal.id d
    then match find (fun r => Deal.id r =? k) l with
         | Some _ => Some d
         | None => None
         end
    else find (fun r => Deal.id r =? k) l.
Proof.
  induction l as [|r l IH]; simpl.
  - destruct (k =? Deal.id d); reflexivity.
  - destruct (Z.eqb_spec (Deal.id r) (Deal.id d)) as [Hrd|Hrd];
      destruct (Z.eqb_spec k (Deal.id d)) as [Hk|Hk].
    + rewrite Hk, Z.eqb_refl.
      destruct (Z.eqb_spec (Deal.id r) (Deal.id d)); [reflexivity|lia].
    + destruct (Z.eqb_spec (Deal.id d) k); [lia|].
      destruct (Z.eqb_spec (Deal.id r) k); [lia|].
      rewrite IH. destruct (Z.eqb_spec k (Deal.id d)); [lia|reflexivity].
    + destruct (Z.eqb_spec (Deal.id r) k); [lia|].
      rewrite IH. destruct (Z.eqb_spec k (Deal.id d)); [reflexivity|lia].
    + destruct (Z.eqb_spec (Deal.id r) k); [reflexivity|].
      rewrite IH. destruct (Z.eqb_spec k (Deal.id d)); [lia|reflexivity].
Qed.

Lemma get_deal_commit (d : Deal.t) (s : Store) (k : Z) :
  get_deal (commit d s) k
  = if k =? Deal.id d
    then match get_deal s k with Some _ => Some d | None => None end
    else get_deal s k.
Proof. unfold get_deal, commit; simpl. apply find_replace. Qed.

Lemma get_deal_commit_eq (d d0 : Deal.t) (s : Store) :
  get_deal s (Deal.id d) = Some d0 ->
  get_deal (commit d s) (Deal.id d) = Some d.
Proof.
  intros H. rewrite get_deal_commit, Z.eqb_refl, H. reflexivity.
Qed.

Lemma get_deal_commit_ne (d : Deal.t) (s : Store) (k : Z) :
  k <> Deal.id d -> get_deal (commit d s) k = get_deal s k.
Proof.
  intros H. rewrite get_deal_commit.
  destruct (Z.eqb_spec k (Deal.id d)); [contradiction|reflexivity].
Qed.


Lemma get_deal_add_deal (d x : Deal.t) (s : Store) (k : Z) :
  get_deal s k = Some x -> get_deal (add_deal d s) k = Some x.
Proof.
  unfold get_deal, add_deal; simpl.
  induction (deals s) as [|r l IH]; simpl; [discriminate|].
  destruct (Deal.id r =? k); [trivial|exact IH].
Qed.


(** ** What [ensure_party] does: nothing, or the one-time binding *)

Lemma ensure_party_spec (s : Store) (u : TgUser) (d : Deal.t)
    (ok : bool) (d' : Deal.t) (s' : Store) :
  ensure_party s u d = (ok, d', s') ->
  (d' = d /\ s' = s /\
   ok = ((user_id u =? Deal.buyer_id d) || (user_id u =? Deal.seller_id d)))
  \/
  (ok = true /\ user_id u <> Deal.buyer_id d /\ Deal.seller_id d = 0 /\
   user_id u <> 0 /\ handle_matches u d = true /\
   d' = Deal.set_seller_id d (user_id u) /\ s' = commit d' s).
Proof.
  unfold ensure_party. intros H.
  destruct (Z.eqb_spec (user_id u) (Deal.buyer_id d)) as [Hb|Hb]; simpl in H.
  { inversion H; subst. left. auto. }
  destruct (Z.eqb_spec (user_id u) (Deal.seller_id d)) as [Hs|Hs]; simpl in H.
  { inversion H; subst. left. auto. }
  destruct (Z.eqb_spec (Deal.seller_id d) 0) as [H0|H0]; simpl in H.
  - destruct (truthy (Deal.seller_username d)).
    + destruct (handle_matches u d) eqn:Hm.
      * inversion H; subst. right. repeat split; auto. congruence.
      * inversion H; subst. left. auto.
    + inversion H; subst. left. auto.
  - inversion H; subst. left. auto.
Qed.

Lemma ensure_party_get (s : Store) (u : TgUser) (d : Deal.t)
    (ok : bool) (d' : Deal.t) (s' : Store) :
  ensure_party s u d = (ok, d', s') ->
  get_deal s (Deal.id d) = Some d ->
  get_deal s' (Deal.id d) = Some d'.
Proof.
  intros H Hg.
  destruct (ensure_party_spec _ _ _ _ _ _ H)
    as [(-> & -> & _)|(_ & _ & _ & _ & _ & -> & ->)]; [exact Hg|].
  apply (get_deal_commit_eq (Deal.set_seller_id d (user_id u)) d s). exact Hg.
Qed.

Lemma ensure_party_fields (s : Store) (u : TgUser) (d : Deal.t)
    (ok : bool) (d' : Deal.t) (s' : Store) :
  ensure_party s u d = (ok, d', s') ->
  Deal.id d' = Deal.id d /\ Deal.buyer_id d' = Deal.buyer_id d /\
  Deal.status d' = Deal.status d /\ Deal.amount d' = Deal.amount d /\
  Deal.auto_finalise_at d' = Deal.auto_finalise_at d /\
  disputes s' = disputes s /\
  _pending_dispute_reason s' = _pending_dispute_reason s /\
  (Deal.seller_id d <> 0 -> d' = d /\ s' = s).
Proof.
  intros H.
  destruct (ensure_party_spec _ _ _ _ _ _ H)
    as [(-> & -> & _)|(_ & _ & H0 & _ & _ & -> & ->)].
  - repeat split; reflexivity.
  - repeat split; try reflexivity; contradiction.
Qed.

(** ** Deals evolve row by row *)

#[local] Instance bound_kept_pre : Preorder bound_kept.
Proof.
  split.
  - intros d. repeat split.
  - intros a b c (Hi & Hb & Hs) (Hi' & Hb' & Hs').
    repeat split; try congruence.
    intros Ha. rewrite Hs', Hs; auto. rewrite Hs; auto.
Qed.

#[local] Instance final_kept_pre : Preorder final_kept.
Proof.
  split.
  - intros d _. reflexivity.
  - intros a b c H1 H2 Ha. unfold final_kept in *.
    rewrite H2, H1; auto. rewrite H1; auto.
Qed.

#[local] Instance kept_pre : Preorder kept.
Proof.
  split.
  - intros d. split; apply pre_refl.
  - intros a b c [H1 H2] [H3 H4]. split; eapply pre_trans; eauto.
Qed.

Section Evolution.
Context (R : Deal.t -> Deal.t -> Prop) `{HR : !Preorder R}.

Lemma evolves_refl (s : Store) : evolves R s s.
Proof. intros k d H. exists d. split; [exact H|apply pre_refl]. Qed.

Lemma evolves_trans (s1 s2 s3 : Store) :
  evolves R s1 s2 -> evolves R s2 s3 -> evolves R s1 s3.
Proof.
  intros H12 H23 k d H.
  destruct (H12 _ _ H) as (d2 & Hd2 & R12).
  destruct (H23 _ _ Hd2) as (d3 & Hd3 & R23).
  exists d3. split; [exact Hd3|]. eapply pre_trans; eauto.
Qed.

Lemma evolves_commit (s : Store) (d0 d : Deal.t) :
  get_deal s (Deal.id d) = Some d0 -> R d0 d -> evolves R s (commit d s).
Proof.
  intros Hg Hr k x Hx. rewrite get_deal_commit.
  destruct (Z.eqb_spec k (Deal.id d)) as [->|Hk].
  - rewrite Hx. exists d. split; [reflexivity|]. congruence.
  - exists x. split; [exact Hx|apply pre_refl].
Qed.

Lemma evolves_same_deals (s s' : Store) :
  deals s' = deals s -> evolves R s s'.
Proof.
  intros E k d H. exists d. split; [|apply pre_refl].
  unfold get_deal in *. rewrite E. exact H.
Qed.

Lemma evolves_add_deal (s : Store) (d : Deal.t) :
  evolves R s (add_deal d s).
Proof.
  intros k x H. exists x. split; [|apply pre_refl].
  apply get_deal_add_deal, H.
Qed.

Lemma evolves_deals_eq (s x y : Store) :
  evolves R s x -> deals y = deals x -> evolves R s y.
Proof.
  intros H E. eapply evolves_trans; [exact H|].
  apply evolves_same_deals, E.
Qed.
End Evolution.

Lemma evolves_weaken (R R' : Deal.t -> Deal.t -> Prop) (s s' : Store) :
  (forall d d', R d d' -> R' d d') -> evolves R s s' -> evolves R' s s'.
Proof.
  intros HR H k d Hd. destruct (H _ _ Hd) as (d' & Hd' & Hr). eauto.
Qed.

Lemma ensure_party_evolves (s : Store) (u : TgUser) (d : Deal.t)
    (ok : bool) (d' : Deal.t) (s' : Store) :
  ensure_party s u d = (ok, d', s') ->
  get_deal s (Deal.id d) = Some d ->
  evolves kept s s'.
Proof.
  intros H Hg.
  destruct (ensure_party_spec _ _ _ _ _ _ H)
    as [(-> & -> & _)|(_ & _ & H0 & _ & _ & -> & ->)].
  - apply evolves_refl; apply _.
  - eapply evolves_commit; [apply _|exact Hg|].
    split; [repeat split; simpl; auto; contradiction|].
    intros _. reflexivity.
Qed.

(** ** Every handler but the reason collector keeps terminal deals *)

(** [kept d1 d2] for a row [d2] written from [d1] under the guards in the
    context. *)
Ltac kept_update :=
  split;
  [ repeat split; simpl; auto
  | let Ht := fresh "Ht" in
    intros Ht; simpl; try reflexivity;
    destruct Ht as [Ht|Ht]; rewrite Ht in *;
    vm_compute in *; congruence ].

(** Case analysis on every test of the handler in the goal. *)
Ltac split_tests :=
  repeat match goal with
         | |- context [if ?b then _ else _] => destruct b eqn:?; simpl
         | |- context [match ?o with Some _ => _ | None => _ end] =>
             destruct o eqn:?; simpl
         end.

(** Opens a handler that loads a deal and asks the party resolver. *)
Ltac open_party_handler s u i :=
  let d := fresh "d" in
  let Hg := fresh "Hg" in
  destruct (get_deal s i) as [d|] eqn:Hg;
  [ let ok := fresh "ok" in
    let d1 := fresh "d1" in
    let s1 := fresh "s1" in
    let E := fresh "E" in
    pose proof (get_deal_id _ _ _ Hg); subst i;
    destruct (ensure_party s u d) as [[ok d1] s1] eqn:E;
    pose proof (ensure_party_evolves _ _ _ _ _ _ E Hg);
    let Hg1 := fresh "Hg1" in
    let Hid := fresh "Hid" in
    pose proof (ensure_party_get _ _ _ _ _ _ E Hg) as Hg1;
    destruct (ensure_party_fields _ _ _ _ _ _ E)
      as (Hid & ? & ? & ? & ? & ? & ? & ?);
    rewrite <- Hid in Hg1;
    simpl
  | simpl; try (apply evolves_refl; apply _) ].

(** Opens a handler that only loads a deal. *)
Ltac open_handler s i :=
  let d := fresh "d" in
  let Hg := fresh "Hg" in
  destruct (get_deal s i) as [d|] eqn:Hg;
  [ pose proof (get_deal_id _ _ _ Hg); subst i; simpl
  | simpl; try (apply evolves_refl; apply _) ].

(** Closes a leaf: the session is the resolver's, or one commit later. *)
Ltac close_commit :=
  first
    [ assumption
    | apply evolves_refl; apply _
    | eapply evolves_trans; [apply _|eassumption|];
      eapply evolves_commit; [apply _|simpl; eassumption|kept_update]
    | eapply evolves_commit; [apply _|simpl; eassumption|kept_update] ].

Ltac close_leaf :=
  first
    [ close_commit
    | eapply evolves_deals_eq; [apply _|close_commit|reflexivity] ].

Lemma newdeal_cmd_kept cfg u tag amt s :
  evolves kept s (snd (newdeal_cmd cfg u tag amt s)).
Proof.
  unfold newdeal_cmd. split_tests;
    first [apply evolves_refl; apply _|apply evolves_add_deal; apply _].
Qed.

Lemma accept_cmd_kept cfg u i s : evolves kept s (snd (accept_cmd cfg u i s)).
Proof.
  unfold accept_cmd, seller_check. open_party_handler s u i.
  split_tests; close_leaf.
Qed.

Lemma start_cmd_kept cfg u i s : evolves kept s (snd (start_cmd cfg u i s)).
Proof.
  unfold start_cmd, seller_check. open_party_handler s u i.
  destruct ok; simpl; [|assumption].
  destruct (Z.eqb_spec (user_id u) (Deal.seller_id d1)); simpl; [|assumption].
  destruct (String.eqb (Deal.status d1) PENDING_ACCEPT) eqn:?; simpl;
    close_leaf.
Qed.

Lemma decline_cmd_kept u i s : evolves kept s (snd (decline_cmd u i s)).
Proof.
  unfold decline_cmd, seller_check. open_party_handler s u i.
  split_tests; close_leaf.
Qed.

Lemma maybe_autofinalise_kept now s d fired d' s' :
  maybe_autofinalise now s d = (fired, d', s') ->
  get_deal s (Deal.id d) = Some d ->
  evolves kept s s'.
Proof.
  unfold maybe_autofinalise. intros H Hg.
  destruct (Deal.auto_finalise_at d) as [t|];
    [|inversion H; subst; apply evolves_refl; apply _].
  destruct (String.eqb (Deal.status d) FUNDED && (t <=? now)) eqn:Hc;
    [|inversion H; subst; apply evolves_refl; apply _].
  apply andb_true_iff in Hc as [Hst _].
  destruct (first_open_dispute s (Deal.id d));
    inversion H; subst; [apply evolves_refl; apply _|].
  eapply evolves_commit; [apply _|simpl; exact Hg|kept_update].
Qed.

Lemma status_cmd_kept now u i s : evolves kept s (snd (status_cmd now u i s)).
Proof.
  unfold status_cmd. open_party_handler s u i.
  destruct ok; simpl; [|assumption].
  destruct (maybe_autofinalise now s1 d1) as [[fired d2] s2] eqn:M.
  pose proof (maybe_autofinalise_kept _ _ _ _ _ _ M Hg1) as Hm.
  assert (evolves kept s s2)
    by (eapply evolves_trans; [apply _|eassumption|exact Hm]).
  destruct fired; simpl; assumption.
Qed.

Lemma confirm_amount_cmd_kept u i s :
  evolves kept s (snd (confirm_amount_cmd u i s)).
Proof.
  unfold confirm_amount_cmd, seller_check. open_party_handler s u i.
  split_tests; close_leaf.
Qed.

Lemma setpayout_cmd_kept u i a s :
  evolves kept s (snd (setpayout_cmd u i a s)).
Proof.
  unfold setpayout_cmd, seller_check. open_party_handler s u i.
  split_tests; close_leaf.
Qed.

Lemma finalise_cmd_kept c i s : evolves kept s (snd (finalise_cmd c i s)).
Proof.
  unfold finalise_cmd. open_handler s i. split_tests; close_leaf.
Qed.

Lemma cancel_cmd_kept cfg c i s : evolves kept s (snd (cancel_cmd cfg c i s)).
Proof.
  unfold cancel_cmd. open_handler s i. split_tests; close_leaf.
Qed.

Lemma dispute_cmd_kept u i a s : evolves kept s (snd (dispute_cmd u i a s)).
Proof.
  unfold dispute_cmd. open_party_handler s u i. split_tests; close_leaf.
Qed.

Lemma offer_cancel_kept a i s : evolves kept s (snd (offer_cancel a i s)).
Proof.
  unfold offer_cancel. destruct a; simpl; [|apply evolves_refl; apply _].
  open_handler s i. split_tests; close_leaf.
Qed.

Lemma deal_resolve_kept a i act pct s :
  evolves kept s (snd (deal_resolve a i act pct s)).
Proof.
  unfold deal_resolve, close_dispute.
  destruct a; simpl; [|apply evolves_refl; apply _].
  open_handler s i. split_tests; close_leaf.
Qed.

Lemma mark_funded_kept cfg now i n s :
  evolves kept s (snd (mark_funded cfg now i n s)).
Proof.
  unfold mark_funded. open_handler s i. split_tests; close_leaf.
Qed.

(** The reason collector keeps identities, not statuses. *)
Lemma collect_dispute_reason_bound_kept u cap txt s :
  evolves bound_kept s (snd (collect_dispute_reason u cap txt s)).
Proof.
  unfold collect_dispute_reason.
  destruct (_pending_dispute_reason s !! user_id u) as [i|];
    [|apply evolves_refl; apply _].
  set (s0 := set_pending _ s).
  assert (H0 : evolves bound_kept s s0)
    by (apply evolves_same_deals; [apply _|reflexivity]).
  destruct (get_deal s0 i) as [d|] eqn:Hg; simpl; [|exact H0].
  pose proof (get_deal_id _ _ _ Hg); subst i.
  destruct (ensure_party s0 u d) as [[ok d1] s1] eqn:E'.
  pose proof (ensure_party_evolves _ _ _ _ _ _ E' Hg) as H1.
  apply (evolves_weaken kept bound_kept) in H1; [|intros ? ? [? _]; assumption].
  pose proof (ensure_party_get _ _ _ _ _ _ E' Hg) as Hg1.
  destruct (ensure_party_fields _ _ _ _ _ _ E') as (Hid & _).
  rewrite <- Hid in Hg1.
  assert (H01 : evolves bound_kept s s1)
    by (eapply evolves_trans; [apply _|exact H0|exact H1]).
  destruct ok; simpl; [|exact H01].
  eapply evolves_deals_eq; [apply _| |reflexivity].
  eapply evolves_trans; [apply _|exact H01|].
  eapply evolves_commit; [apply _|simpl; exact Hg1|].
  repeat split; simpl; auto.
Qed.

(** Every request but a collected reason leaves each deal in place, with
    its identity, its bound seller and its terminal status. *)
Lemma step_kept (cfg : Config) (now : Z) (c : Command) (s : Store) :
  (forall u cap txt, c <> CollectReason u cap txt) ->
  evolves kept s (snd (step cfg now c s)).
Proof.
  intros Hc. destruct c; simpl;
    auto using newdeal_cmd_kept, accept_cmd_kept, start_cmd_kept,
      decline_cmd_kept, status_cmd_kept, confirm_amount_cmd_kept,
      setpayout_cmd_kept, finalise_cmd_kept, cancel_cmd_kept,
      dispute_cmd_kept, offer_cancel_kept, deal_resolve_kept,
      mark_funded_kept.
  exfalso. eapply Hc. reflexivity.
Qed.

(** Every request leaves each deal in place, with its identity, its buyer
    and its bound seller. *)
Lemma step_bound_kept (cfg : Config) (now : Z) (c : Command) (s : Store) :
  evolves bound_kept s (snd (step cfg now c s)).
Proof.
  destruct c;
    try (apply (evolves_weaken kept bound_kept);
         [intros ? ? [? _]; assumption|apply step_kept; discriminate]).
  apply collect_dispute_reason_bound_kept.
Qed.

Lemma run_bound_kept (cfg : Config) (cs : list (Z * Command)) (s : Store) :
  evolves bound_kept s (run cfg cs s).
Proof.
  revert s. induction cs as [|[now c] r IH]; intros s; simpl.
  - apply evolves_refl; apply _.
  - eapply evolves_trans; [apply _|apply step_bound_kept|apply IH].
Qed.

(** ** Fee engine *)




Section FeeEngineFacts.
Variable cad_to_asset_units : string -> Z -> Q.

(** X2.  The clamp of the fee, for any conversion of the bounds to asset
    units: with both converted bounds positive and ordered, the fee lies
    between them. *)
Lemma service_fee_by_clamped (asset : string) (amt : Q) (d : Deal.t) :
  let lo := cad_to_asset_units asset (Deal.fee_min_cad_cents d) in
  let hi := cad_to_asset_units asset (Deal.fee_max_cad_cents d) in
  (0 < lo)%Q -> (lo <= hi)%Q ->
  (lo <= service_fee_by cad_to_asset_units asset amt d
   /\ service_fee_by cad_to_asset_units asset amt d <= hi)%Q.
Proof.
  intros lo hi Hlo Hle. unfold service_fee_by. fold lo hi.
  set (raw := (amt * (inject_Z (Deal.fee_bp d) / inject_Z 10000))%Q).
  assert (Hhi : (0 < hi)%Q) by lra.
  apply Qlt_bool_iff in Hlo as Hlo'. apply Qlt_bool_iff in Hhi as Hhi'.
  rewrite Hlo', Hhi'. simpl.
  destruct (Qlt_bool raw lo) eqn:E1.
  - destruct (Qlt_bool hi lo) eqn:E2.
    + apply Qlt_bool_iff in E2. lra.
    + lra.
  - apply Qlt_bool_false_iff in E1.
    destruct (Qlt_bool hi raw) eqn:E2.
    + lra.
    + apply Qlt_bool_false_iff in E2. lra.
Qed.


End FeeEngineFacts.

(** With one asset unit to the cent, the default bounds confine the fee of
    the scenario's deal. *)
Lemma service_fee_by_clamped_witness :
  (300 <= service_fee_by (fun _ cents => inject_Z cents) "BTC" (1 # 100)
            payable_deal
   /\ service_fee_by (fun _ cents => inject_Z cents) "BTC" (1 # 100)
        payable_deal <= 15000)%Q.
Proof.
  apply (service_fee_by_clamped (fun _ cents => inject_Z cents) "BTC"
           (1 # 100) payable_deal).
  - vm_compute. reflexivity.
  - vm_compute. discriminate.
Defined.


Example python_helpers :
  strip "  Alice " = "Alice"
  /\ lower "@Alice_01" = "@alice_01"
  /\ format_08d 1 = "00000001"
  /\ admin_txid "split" 12 = "admin-panel-split-12"
  /\ handle_matches alice offered_deal = true
  /\ handle_matches bob offered_deal = false.
Proof. vm_compute. repeat split. Qed.

Example payable_has_the_deal : get_deal payable 1 = Some payable_deal.
Proof. vm_compute. reflexivity. Qed.

Example scenario_statuses :
  option_map Deal.status (get_deal offered 1) = Some PENDING_ACCEPT
  /\ option_map Deal.seller_id (get_deal offered 1) = Some 0
  /\ option_map Deal.status (get_deal funded 1) = Some FUNDED
  /\ option_map Deal.seller_id (get_deal funded 1) = Some 2.
Proof. vm_compute. repeat split. Qed.

(** ** C6: the service fee *)





(** ** C5: finalisation by the buyer *)




(** ** C10: cancelling an unfunded deal *)




(** ** C4: the funding notification *)

(** C4.  For a stored deal in AWAIT_FUNDS, a notification with at least the
    required confirmations makes the deal FUNDED, sets the funded timestamp
    to the time of the notification and the auto-finalise deadline to that
    time plus the grace window. *)
Theorem mark_funded_correct (cfg : Config) (now deal_id confirmations : Z)
    (s : Store) (d : Deal.t) :
  get_deal s deal_id = Some d ->
  Deal.status d = AWAIT_FUNDS ->
  Deal.required_confs d <= confirmations ->
  exists d',
    mark_funded cfg now deal_id confirmations s = (Funded, commit d' s)
    /\ get_deal (commit d' s) deal_id = Some d'
    /\ Deal.status d' = FUNDED
    /\ Deal.funded_at d' = Some now
    /\ Deal.auto_finalise_at d' = Some (now + GRACE_WINDOW cfg)
    /\ Deal.confirmations d' = confirmations
    /\ bound_kept d d' /\ Deal.amount d' = Deal.amount d.
Proof.
  intros Hg Hst Hc.
  pose proof (get_deal_id _ _ _ Hg) as Hid.
  unfold mark_funded. rewrite Hg, Hst. simpl.
  destruct (Z.ltb_spec confirmations (Deal.required_confs d)); [lia|].
  eexists. split; [reflexivity|].
  split.
  - rewrite <- Hid.
    apply (get_deal_commit_eq
             (Deal.set_funding (Deal.set_status d FUNDED) confirmations now
                (now + GRACE_WINDOW cfg)) d).
    simpl. rewrite Hid. exact Hg.
  - repeat split.
Qed.

Lemma mark_funded_correct_witness :
  exists d',
    mark_funded cfg0 30 1 1 (run cfg0 [(20, Accept alice 1)] offered)
    = (Funded, commit d' (run cfg0 [(20, Accept alice 1)] offered))
    /\ Deal.status d' = FUNDED
    /\ Deal.auto_finalise_at d' = Some 86430.
Proof.
  destruct (mark_funded_correct cfg0 30 1 1
              (run cfg0 [(20, Accept alice 1)] offered)
              (Deal.mk 1 1 2 (Some "@alice") "BTC" (1 # 100)%Q 150 300 15000
                 AWAIT_FUNDS (Some "bc1qescrow00000001xyz") 0 1 None None
                 None None None None))
    as (d' & Hm & _ & Hs & _ & Ha & _).
  - vm_compute. reflexivity.
  - reflexivity.
  - simpl. lia.
  - exists d'. split; [exact Hm|]. split; [exact Hs|exact Ha].
Defined.

(** ** C3: lazy auto-finalisation on a status read *)

Lemma first_open_none_iff (s : Store) (i : Z) :
  first_open_dispute s i = None <-> open_disputes s i = [].
Proof.
  unfold first_open_dispute, open_disputes.
  induction (disputes s) as [|x l IH]; simpl.
  - split; reflexivity.
  - rewrite filter_cons.
    destruct (is_open_for i x) eqn:E.
    + destruct (decide (true = true)); [|congruence].
      split; discriminate.
    + destruct (decide (false = true)); [discriminate|]. exact IH.
Qed.

Lemma maybe_autofinalise_spec (now : Z) (s : Store) (d : Deal.t) :
  (due now s d ->
   maybe_autofinalise now s d
   = (true, Deal.set_release_txid (Deal.set_status d RELEASED) None,
      commit (Deal.set_release_txid (Deal.set_status d RELEASED) None) s))
  /\ (~ due now s d -> maybe_autofinalise now s d = (false, d, s)).
Proof.
  unfold due, maybe_autofinalise.
  destruct (Deal.auto_finalise_at d) as [t|].
  2:{ split; [intros (_ & (t & Ht & _) & _); discriminate|reflexivity]. }
  destruct (String.eqb_spec (Deal.status d) FUNDED) as [Hst|Hst]; simpl.
  2:{ split; [intros (? & _); contradiction|reflexivity]. }
  destruct (Z.leb_spec t now) as [Ht|Ht].
  2:{ split; [|reflexivity].
      intros (_ & (t' & Ht' & Hle) & _). inversion Ht'; subst. lia. }
  destruct (first_open_dispute s (Deal.id d)) as [x|] eqn:Hf.
  - split; [|reflexivity].
    intros (_ & _ & Hn). apply first_open_none_iff in Hn. congruence.
  - split; [reflexivity|].
    intros Hn. exfalso. apply Hn. repeat split; eauto.
    apply first_open_none_iff, Hf.
Qed.

Lemma due_dec (now : Z) (s : Store) (d : Deal.t) :
  due now s d \/ ~ due now s d.
Proof.
  unfold due.
  destruct (String.eqb_spec (Deal.status d) FUNDED) as [Hst|Hst];
    [|right; tauto].
  destruct (Deal.auto_finalise_at d) as [t|];
    [|right; intros (_ & (t & Ht & _) & _); discriminate].
  destruct (Z.leb_spec t now) as [Ht|Ht].
  2:{ right. intros (_ & (t' & Ht' & Hle) & _). inversion Ht'; subst. lia. }
  destruct (open_disputes s (Deal.id d)) as [|x l] eqn:E.
  - left. eauto.
  - right. intros (_ & _ & ?). discriminate.
Qed.

(** C3.  A status read of a stored deal, by a caller the party check lets
    through, answers with the auto-finalisation, and so moves the deal to
    RELEASED, exactly when the deal is FUNDED, its deadline is set and is
    not after the time of the read, and the deal has no OPEN dispute;
    otherwise the status stays.  In particular nothing fires while an OPEN
    dispute exists, whatever the deadline. *)
Theorem status_read_autofinalises_iff (now : Z) (u : TgUser) (deal_id : Z)
    (s : Store) (d : Deal.t) :
  get_deal s deal_id = Some d ->
  fst (fst (ensure_party s u d)) = true ->
  let r := status_cmd now u deal_id s in
  (fst r = AutoFinalised <-> due now s d)
  /\ (exists d',
        get_deal (snd r) deal_id = Some d'
        /\ (due now s d -> Deal.status d' = RELEASED)
        /\ (~ due now s d ->
            Deal.status d' = Deal.status d /\ fst r = StatusShown d'))
  /\ (open_disputes s deal_id <> [] ->
      fst r <> AutoFinalised
      /\ exists d', get_deal (snd r) deal_id = Some d'
                    /\ Deal.status d' = Deal.status d).
Proof.
  intros Hg Hok r.
  pose proof (get_deal_id _ _ _ Hg) as Hid.
  assert (Hr : r = status_cmd now u deal_id s) by reflexivity.
  unfold status_cmd in Hr. rewrite Hg in Hr.
  destruct (ensure_party s u d) as [[ok d1] s1] eqn:E. simpl in Hok. subst ok.
  rewrite <- Hid in Hg.
  pose proof (ensure_party_get _ _ _ _ _ _ E Hg) as Hg1.
  destruct (ensure_party_fields _ _ _ _ _ _ E)
    as (Hid1 & _ & Hst & _ & Haf & Hdisp & _ & _).
  assert (Hdue : due now s1 d1 <-> due now s d).
  { unfold due, open_disputes. rewrite Hst, Haf, Hdisp, Hid1. tauto. }
  simpl in Hr.
  destruct (maybe_autofinalise_spec now s1 d1) as [Hyes Hno].
  assert (Hmain :
    (fst r = AutoFinalised <-> due now s d)
    /\ (exists d',
          get_deal (snd r) deal_id = Some d'
          /\ (due now s d -> Deal.status d' = RELEASED)
          /\ (~ due now s d ->
              Deal.status d' = Deal.status d /\ fst r = StatusShown d'))).
  { destruct (due_dec now s d) as [Hd|Hd].
    - rewrite (Hyes (proj2 Hdue Hd)) in Hr. rewrite Hr. simpl.
      split; [tauto|].
      exists (Deal.set_release_txid (Deal.set_status d1 RELEASED) None).
      split; [|split; [reflexivity|contradiction]].
      rewrite <- Hid, <- Hid1.
      apply (get_deal_commit_eq
               (Deal.set_release_txid (Deal.set_status d1 RELEASED) None) d1).
      simpl. rewrite Hid1. exact Hg1.
    - assert (Hd1 : ~ due now s1 d1) by tauto.
      rewrite (Hno Hd1) in Hr. rewrite Hr. simpl.
      split; [split; [discriminate|contradiction]|].
      exists d1. split; [rewrite <- Hid; exact Hg1|].
      split; [contradiction|]. intros _. split; [exact Hst|reflexivity]. }
  destruct Hmain as [Hiff (d' & Hd' & Hrel & Hstay)].
  split; [exact Hiff|]. split; [exists d'; auto|].
  intros Hopen.
  assert (Hnd : ~ due now s d).
  { intros (_ & _ & Hn). apply Hopen. rewrite <- Hid. exact Hn. }
  split; [tauto|]. exists d'. split; [exact Hd'|]. apply Hstay, Hnd.
Qed.

Lemma status_read_autofinalises_iff_witness :
  get_deal payable 1 = Some payable_deal
  /\ fst (fst (ensure_party payable bob payable_deal)) = true
  /\ fst (status_cmd 90000 bob 1 payable) = AutoFinalised.
Proof.
  assert (H2 : fst (fst (ensure_party payable bob payable_deal)) = true)
    by (vm_compute; reflexivity).
  split; [exact payable_has_the_deal|]. split; [exact H2|].
  apply (status_read_autofinalises_iff 90000 bob 1 payable payable_deal
           payable_has_the_deal H2).
  unfold due. split; [reflexivity|]. split.
  - exists 86430. split; [reflexivity|lia].
  - vm_compute. reflexivity.
Defined.

(** ** C9: seller binding *)

Lemma handle_matches_tag (u : TgUser) (d : Deal.t) :
  handle_matches u d = true -> truthy (Deal.seller_username d) = true.
Proof.
  unfold handle_matches, truthy, or_empty.
  intros H. apply andb_true_iff in H as [_ H]. apply String.eqb_eq in H.
  destruct (Deal.seller_username d) as [t|]; [|discriminate].
  destruct t; [discriminate|reflexivity].
Qed.

(** With a bound seller the party resolver changes nothing, and the
    seller's guard is the identity test. *)
Lemma seller_check_bound (s : Store) (u : TgUser) (d : Deal.t) :
  Deal.seller_id d <> 0 ->
  ensure_party s u d
  = ((user_id u =? Deal.buyer_id d) || (user_id u =? Deal.seller_id d), d, s)
  /\ seller_check s u d = (user_id u =? Deal.seller_id d, d, s).
Proof.
  intros Hb.
  assert (He : ensure_party s u d
               = ((user_id u =? Deal.buyer_id d)
                  || (user_id u =? Deal.seller_id d), d, s)).
  { unfold ensure_party.
    destruct ((user_id u =? Deal.buyer_id d)
              || (user_id u =? Deal.seller_id d)); [reflexivity|].
    destruct (Z.eqb_spec (Deal.seller_id d) 0); [contradiction|reflexivity]. }
  split; [exact He|].
  unfold seller_check. rewrite He.
  destruct (user_id u =? Deal.buyer_id d);
    destruct (user_id u =? Deal.seller_id d); reflexivity.
Qed.

(** C9.  For a stored deal:
    - while the seller is unbound (0), a caller who is not the buyer and
      whose handle matches the stored tag, case apart, is let through by the
      party resolver and stored as the seller; from then on (for a caller id
      other than the sentinel) no run of requests changes the seller;
    - once the seller is bound, the seller's guard is the identity test
      alone and the resolver writes nothing;
    - so a different user is refused by every command of the seller with
      Forbidden, the session unchanged, whatever handle that user shows. *)
Theorem seller_binding (s : Store) (u : TgUser) (d : Deal.t) :
  get_deal s (Deal.id d) = Some d ->
  (Deal.seller_id d = 0 -> user_id u <> Deal.buyer_id d ->
   handle_matches u d = true ->
   exists d' s',
     ensure_party s u d = (true, d', s')
     /\ seller_check s u d = (true, d', s')
     /\ Deal.seller_id d' = user_id u
     /\ get_deal s' (Deal.id d) = Some d'
     /\ (user_id u <> 0 ->
         forall cfg cs, exists d'',
           get_deal (run cfg cs s') (Deal.id d) = Some d''
           /\ Deal.seller_id d'' = user_id u))
  /\ (Deal.seller_id d <> 0 ->
      (forall cfg cs, exists d',
          get_deal (run cfg cs s) (Deal.id d) = Some d'
          /\ Deal.seller_id d' = Deal.seller_id d)
      /\ seller_check s u d = (user_id u =? Deal.seller_id d, d, s)
      /\ (user_id u <> Deal.seller_id d ->
          forall cfg addr,
            accept_cmd cfg u (Deal.id d) s = (Failed Forbidden, s)
            /\ start_cmd cfg u (Deal.id d) s = (Online, s)
            /\ decline_cmd u (Deal.id d) s = (Failed Forbidden, s)
            /\ confirm_amount_cmd u (Deal.id d) s = (Failed Forbidden, s)
            /\ setpayout_cmd u (Deal.id d) addr s = (Failed Forbidden, s))).
Proof.
  intros Hg.
  assert (Hperm : forall (s0 : Store) (d0 : Deal.t),
            get_deal s0 (Deal.id d) = Some d0 -> Deal.seller_id d0 <> 0 ->
            forall cfg cs, exists d',
              get_deal (run cfg cs s0) (Deal.id d) = Some d'
              /\ Deal.seller_id d' = Deal.seller_id d0).
  { intros s0 d0 H0 Hb cfg cs.
    destruct (run_bound_kept cfg cs s0 _ _ H0) as (d' & Hd' & _ & _ & Hs).
    exists d'. split; [exact Hd'|apply Hs, Hb]. }
  split.
  - intros H0 Hnb Hm.
    destruct (ensure_party s u d) as [[ok d'] s'] eqn:E.
    pose proof (ensure_party_get _ _ _ _ _ _ E Hg) as Hg'.
    assert (Hok : ok = true /\ Deal.seller_id d' = user_id u).
    { revert E. unfold ensure_party.
      destruct (Z.eqb_spec (user_id u) (Deal.buyer_id d)); [contradiction|].
      destruct (Z.eqb_spec (user_id u) (Deal.seller_id d)) as [Hs|Hs]; simpl.
      - intros E; inversion E; subst. split; [reflexivity|congruence].
      - rewrite H0, (handle_matches_tag _ _ Hm), Hm. simpl.
        intros E; inversion E; subst. split; reflexivity. }
    destruct Hok as [-> Hsel].
    exists d', s'. split; [reflexivity|]. split.
    + unfold seller_check. rewrite E, Hsel, Z.eqb_refl. reflexivity.
    + split; [exact Hsel|]. split; [exact Hg'|].
      intros Hnz cfg cs.
      destruct (Hperm s' d' Hg' ltac:(congruence) cfg cs) as (d'' & ? & ?).
      exists d''. split; [assumption|congruence].
  - intros Hb.
    destruct (seller_check_bound s u d Hb) as [He Hsc].
    split; [exact (Hperm s d Hg Hb)|]. split; [exact Hsc|].
    intros Hne cfg addr.
    assert (Hf : (user_id u =? Deal.seller_id d) = false)
      by (apply Z.eqb_neq, Hne).
    unfold accept_cmd, start_cmd, decline_cmd, confirm_amount_cmd,
      setpayout_cmd.
    rewrite Hg, Hsc, Hf. simpl. repeat split.
Qed.

Lemma seller_binding_witness :
  get_deal offered (Deal.id offered_deal) = Some offered_deal
  /\ handle_matches alice offered_deal = true
  /\ exists d' s',
       ensure_party offered alice offered_deal = (true, d', s')
       /\ Deal.seller_id d' = 2.
Proof.
  assert (Hg : get_deal offered (Deal.id offered_deal) = Some offered_deal)
    by (vm_compute; reflexivity).
  assert (Hm : handle_matches alice offered_deal = true)
    by (vm_compute; reflexivity).
  split; [exact Hg|]. split; [exact Hm|].
  destruct (proj1 (seller_binding offered alice offered_deal Hg))
    as (d' & s' & He & _ & Hs & _).
  - reflexivity.
  - simpl. lia.
  - exact Hm.
  - exists d', s'. split; [exact He|exact Hs].
Defined.

(** The impostor of the scenario: the seller's handle, another identity. *)
Example mallory_is_refused :
  handle_matches mallory payable_deal = true
  /\ accept_cmd cfg0 mallory 1 payable = (Failed Forbidden, payable)
  /\ setpayout_cmd mallory 1 "bc1qmallory" payable
     = (Failed Forbidden, payable)
  /\ fst (status_cmd 50 mallory 1 payable) = Failed Forbidden.
Proof. vm_compute. repeat split. Qed.

(** ** C7 and C8: the admin's resolution *)








Lemma get_deal_close_dispute (o : option Dispute.t) (i loser k : Z)
    (s : Store) :
  get_deal (close_dispute o i loser s) k = get_deal s k.
Proof. destruct o; reflexivity. Qed.

Lemma status_resolvable (d : Deal.t) :
  Deal.status d = FUNDED \/ Deal.status d = DISPUTED <->
  (String.eqb (Deal.status d) FUNDED || String.eqb (Deal.status d) DISPUTED)
  = true.
Proof.
  rewrite orb_true_iff, !String.eqb_eq. tauto.
Qed.



Example disputed_has_the_deal :
  get_deal disputed 1 = Some disputed_deal
  /\ disputes disputed
     = [Dispute.mk 1 1 1 (Some "item never arrived") OPEN None].
Proof. vm_compute. split; reflexivity. Qed.



(** C8.  For a stored deal, a resolution (release, refund or split) that
    succeeds found the deal FUNDED or DISPUTED and leaves it RELEASED or
    CANCELLED; on a deal in any other status, a terminal one in particular,
    it fails with InvalidState and the session, deals and disputes alike,
    stays as it was; so a second resolution after a first that succeeded
    fails with InvalidState and changes nothing. *)
Theorem resolve_guard (deal_id : Z) (action : string) (split_pct : option Q)
    (s : Store) (d : Deal.t) :
  get_deal s deal_id = Some d ->
  let r := deal_resolve true deal_id action split_pct s in
  (succeeded (fst r) ->
   (Deal.status d = FUNDED \/ Deal.status d = DISPUTED)
   /\ exists d', get_deal (snd r) deal_id = Some d'
                 /\ terminal (Deal.status d'))
  /\ (~ (Deal.status d = FUNDED \/ Deal.status d = DISPUTED) ->
      r = (Failed InvalidState, s))
  /\ (terminal (Deal.status d) -> r = (Failed InvalidState, s))
  /\ (succeeded (fst r) ->
      forall action' split_pct',
        deal_resolve true deal_id action' split_pct' (snd r)
        = (Failed InvalidState, snd r)).
Proof.
  intros Hg r.
  pose proof (get_deal_id _ _ _ Hg) as Hid.
  assert (Hbad : forall (s0 : Store) (d0 : Deal.t) act pct,
            get_deal s0 deal_id = Some d0 ->
            ~ (Deal.status d0 = FUNDED \/ Deal.status d0 = DISPUTED) ->
            deal_resolve true deal_id act pct s0 = (Failed InvalidState, s0)).
  { intros s0 d0 act pct H0 Hn. unfold deal_resolve. simpl. rewrite H0.
    destruct (String.eqb (Deal.status d0) FUNDED
              || String.eqb (Deal.status d0) DISPUTED) eqn:E;
      [|reflexivity].
    exfalso. apply Hn, status_resolvable, E. }
  assert (Hterm : forall d0 : Deal.t, terminal (Deal.status d0) ->
            ~ (Deal.status d0 = FUNDED \/ Deal.status d0 = DISPUTED)).
  { intros d0 [Ht|Ht] [Hs|Hs]; rewrite Ht in Hs; discriminate. }
  assert (Hok : succeeded (fst r) ->
            (Deal.status d = FUNDED \/ Deal.status d = DISPUTED)
            /\ exists d', get_deal (snd r) deal_id = Some d'
                          /\ terminal (Deal.status d')).
  { assert (Hr : r = deal_resolve true deal_id action split_pct s)
      by reflexivity.
    unfold deal_resolve in Hr. simpl in Hr. rewrite Hg in Hr.
    destruct (String.eqb (Deal.status d) FUNDED
              || String.eqb (Deal.status d) DISPUTED) eqn:E;
      [|rewrite Hr; simpl; contradiction].
    simpl in Hr. intros Hs. split; [apply status_resolvable, E|].
    assert (Hc : forall d' o l,
              Deal.id d' = Deal.id d ->
              get_deal (close_dispute o deal_id l (commit d' s)) deal_id
              = Some d').
    { intros d' o l Hd'. rewrite get_deal_close_dispute, <- Hid, <- Hd'.
      apply (get_deal_commit_eq d' d). rewrite Hd', Hid. exact Hg. }
    destruct (String.eqb action "release").
    { rewrite Hr. simpl. eexists. split; [apply Hc; reflexivity|].
      left. reflexivity. }
    destruct (String.eqb action "refund").
    { rewrite Hr. simpl. eexists. split; [apply Hc; reflexivity|].
      right. reflexivity. }
    destruct (String.eqb action "split");
      [|rewrite Hr in Hs; simpl in Hs; contradiction].
    destruct split_pct as [sp|];
      [|rewrite Hr in Hs; simpl in Hs; contradiction].
    destruct (Qle_bool sp 0 || Qle_bool 100 sp);
      [rewrite Hr in Hs; simpl in Hs; contradiction|].
    rewrite Hr. simpl. eexists. split; [apply Hc; reflexivity|].
    left. reflexivity. }
  split; [exact Hok|]. split; [apply Hbad, Hg|].
  split; [intros Ht; apply (Hbad s d), Hterm, Ht; exact Hg|].
  intros Hs act pct. destruct (Hok Hs) as (_ & d' & Hd' & Ht).
  apply (Hbad (snd r) d'); [exact Hd'|apply Hterm, Ht].
Qed.

Lemma resolve_guard_witness :
  get_deal disputed 1 = Some disputed_deal
  /\ succeeded (fst (deal_resolve true 1 "release" None disputed))
  /\ deal_resolve true 1 "refund" None
       (snd (deal_resolve true 1 "release" None disputed))
     = (Failed InvalidState,
        snd (deal_resolve true 1 "release" None disputed)).
Proof.
  assert (Hg : get_deal disputed 1 = Some disputed_deal)
    by exact (proj1 disputed_has_the_deal).
  assert (Hs : succeeded (fst (deal_resolve true 1 "release" None disputed)))
    by (vm_compute; exact I).
  split; [exact Hg|]. split; [exact Hs|].
  exact (proj2 (proj2 (proj2
           (resolve_guard 1 "release" None disputed disputed_deal Hg)))
           Hs "refund" None).
Defined.

(** ** C1 and C2: the reason collector *)





(** C1 fails on the reason collector.  After the release the deal is
    RELEASED and Bob's pending reason is still registered; the message he
    then sends opens a dispute and moves the deal to DISPUTED. *)
Theorem collect_reason_reopens_released_deal :
  option_map Deal.status (get_deal released_with_slot 1) = Some RELEASED
  /\ _pending_dispute_reason released_with_slot !! 1 = Some 1
  /\ fst (collect_dispute_reason bob None (Some "too late") released_with_slot)
     = DisputeOpened
  /\ option_map Deal.status
       (get_deal
          (snd (collect_dispute_reason bob None (Some "too late")
                  released_with_slot)) 1)
     = Some DISPUTED.
Proof. vm_compute. repeat split. Qed.

(** X1.  Every request other than a collected reason leaves a deal that is
    RELEASED or CANCELLED stored with that status. *)
Lemma terminal_is_final (cfg : Config) (now : Z) (c : Command) (s : Store)
    (k : Z) (d : Deal.t) :
  (forall u caption text, c <> CollectReason u caption text) ->
  get_deal s k = Some d -> terminal (Deal.status d) ->
  exists d', get_deal (snd (step cfg now c s)) k = Some d'
             /\ Deal.status d' = Deal.status d.
Proof.
  intros Hc Hg Ht.
  destruct (step_kept cfg now c s Hc _ _ Hg) as (d' & Hd' & _ & Hf).
  exists d'. split; [exact Hd'|apply Hf, Ht].
Qed.

Lemma terminal_is_final_witness :
  exists d',
    get_deal (snd (step cfg0 70 (Finalise 1 1) released_with_slot)) 1 = Some d'
    /\ Deal.status d' = RELEASED.
Proof.
  apply (terminal_is_final cfg0 70 (Finalise 1 1) released_with_slot 1
           (Deal.mk 1 1 2 (Some "@alice") "BTC" (1 # 100)%Q 150 300 15000
              RELEASED (Some "bc1qescrow00000001xyz") 1 1 None
              (Some "admin-panel-release-1") (Some 30) (Some 86430) None
              (Some "bc1qbob"))).
  - discriminate.
  - vm_compute. reflexivity.
  - left. reflexivity.
Defined.

(** * Further properties *)

(** ** One request, one row *)

Lemma commit_deals (d : Deal.t) (s : Store) :
  deals (commit d s)
  = map (fun r => if Deal.id r =? Deal.id d then d else r) (deals s).
Proof. reflexivity. Qed.

Lemma replace_twice (i : Z) (d1 d2 : Deal.t) (l : list Deal.t) :
  Deal.id d1 = i ->
  map (fun r => if Deal.id r =? i then d2 else r)
      (map (fun r => if Deal.id r =? i then d1 else r) l)
  = map (fun r => if Deal.id r =? i then d2 else r) l.
Proof.
  intros H1. rewrite map_map. apply map_ext. intros r.
  destruct (Z.eqb_spec (Deal.id r) i) as [E|E].
  - rewrite H1, Z.eqb_refl. reflexivity.
  - destruct (Z.eqb_spec (Deal.id r) i); [contradiction|reflexivity].
Qed.

(** The party resolver, as the relation sees it. *)
Lemma ensure_party_binds (s : Store) (u : TgUser) (d : Deal.t)
    (ok : bool) (d1 : Deal.t) (s1 : Store) :
  ensure_party s u d = (ok, d1, s1) ->
  binds u d d1
  /\ Deal.id d1 = Deal.id d
  /\ disputes s1 = disputes s
  /\ _pending_dispute_reason s1 = _pending_dispute_reason s
  /\ (deals s1 = deals s /\ d1 = d
      \/ deals s1
         = map (fun r => if Deal.id r =? Deal.id d then d1 else r) (deals s))
  /\ (ok = true ->
      user_id u = Deal.buyer_id d1 \/ user_id u = Deal.seller_id d1).
Proof.
  intros E.
  destruct (ensure_party_spec _ _ _ _ _ _ E)
    as [(-> & -> & Hok)|(-> & Hb & H0 & Hz & Hm & -> & ->)].
  - split; [constructor|]. repeat split; auto.
    intros ->. symmetry in Hok. apply orb_true_iff in Hok.
    destruct Hok as [H|H]; apply Z.eqb_eq in H; auto.
  - split; [constructor; assumption|]. repeat split; auto.
Qed.

Lemma deals_step_party (cfg : Config) (now : Z) (c : Command)
    (s s1 : Store) (i : Z) (d d1 : Deal.t) :
  get_deal s i = Some d -> resolves c d d1 ->
  (deals s1 = deals s /\ d1 = d
   \/ deals s1
      = map (fun r => if Deal.id r =? Deal.id d then d1 else r) (deals s)) ->
  deals_step cfg now c s s1.
Proof.
  intros Hg Hr [[H _]|H].
  - apply deals_same, H.
  - pose proof (get_deal_id _ _ _ Hg) as Hid.
    apply (deals_update cfg now c s s1 i d d1 d1 Hg Hr (acts_nothing _ _ _ _ _)).
    rewrite H, Hid. reflexivity.
Qed.

Lemma deals_step_commit (cfg : Config) (now : Z) (c : Command)
    (s s1 s' : Store) (i : Z) (d d1 d2 : Deal.t) :
  get_deal s i = Some d -> resolves c d d1 -> Deal.id d1 = Deal.id d ->
  (deals s1 = deals s /\ d1 = d
   \/ deals s1
      = map (fun r => if Deal.id r =? Deal.id d then d1 else r) (deals s)) ->
  deals s' = deals (commit d2 s1) -> Deal.id d2 = Deal.id d1 ->
  acts cfg now s c d1 d2 ->
  deals_step cfg now c s s'.
Proof.
  intros Hg Hr Hid1 Hd Hs' Hid2 Ha.
  pose proof (get_deal_id _ _ _ Hg) as Hid.
  apply (deals_update cfg now c s s' i d d1 d2 Hg Hr Ha).
  rewrite Hs', commit_deals, Hid2, Hid1, Hid.
  destruct Hd as [[H _]|H]; rewrite H; [reflexivity|].
  rewrite Hid. apply replace_twice. congruence.
Qed.

(** Boolean tests of the handlers as propositions. *)
Ltac tests_to_props :=
  repeat match goal with
         | H : negb _ = false |- _ => apply negb_false_iff in H
         | H : negb _ = true |- _ => apply negb_true_iff in H
         | H : _ && _ = true |- _ => apply andb_true_iff in H as [? ?]
         | H : _ || _ = true |- _ => apply orb_true_iff in H
         | H : _ || _ = false |- _ => apply orb_false_iff in H as [? ?]
         | H : String.eqb _ _ = true |- _ => apply String.eqb_eq in H
         | H : String.eqb _ _ = false |- _ => apply String.eqb_neq in H
         | H : (_ =? _) = true |- _ => apply Z.eqb_eq in H
         | H : (_ =? _) = false |- _ => apply Z.eqb_neq in H
         | H : (_ <? _) = false |- _ => apply Z.ltb_ge in H
         | H : (_ <? _) = true |- _ => apply Z.ltb_lt in H
         | H : Qle_bool _ _ = true |- _ => apply Qle_bool_iff in H
         | H : Qle_bool _ _ = false |- _ => apply Qle_bool_false_iff in H
         end.

(** Opens a handler on its deal and on the answer of the party resolver. *)
Ltac open_on_party s u i :=
  let d := fresh "d" in
  let Hg := fresh "Hg" in
  destruct (get_deal s i) as [d|] eqn:Hg;
  [ let ok := fresh "ok" in
    let d1 := fresh "d1" in
    let s1 := fresh "s1" in
    let E := fresh "E" in
    destruct (ensure_party s u d) as [[ok d1] s1] eqn:E;
    let Hb := fresh "Hb" in
    let Hid := fresh "Hid" in
    let Hdi := fresh "Hdi" in
    let Hpe := fresh "Hpe" in
    let Hde := fresh "Hde" in
    let Hpa := fresh "Hpa" in
    destruct (ensure_party_binds _ _ _ _ _ _ E)
      as (Hb & Hid & Hdi & Hpe & Hde & Hpa);
    simpl
  | simpl; try (apply deals_same; reflexivity) ].

Ltac leaf_party :=
  eapply deals_step_party;
  [eassumption|unfold resolves; simpl; eassumption|eassumption].

Ltac leaf_commit :=
  eapply deals_step_commit;
  [ eassumption | unfold resolves; simpl; eassumption | eassumption
  | eassumption | reflexivity | reflexivity | ].

Lemma accept_cmd_deals cfg now u i s :
  deals_step cfg now (Accept u i) s (snd (accept_cmd cfg u i s)).
Proof.
  unfold accept_cmd, seller_check. open_on_party s u i.
  destruct (negb (ok && (user_id u =? Deal.seller_id d1))) eqn:T1; simpl;
    [leaf_party|].
  destruct (negb (String.eqb (Deal.status d1) PENDING_ACCEPT)) eqn:T2; simpl;
    [leaf_party|].
  tests_to_props. leaf_commit. constructor; assumption.
Qed.

Ltac open_plain s i :=
  let d := fresh "d" in
  let Hg := fresh "Hg" in
  destruct (get_deal s i) as [d|] eqn:Hg;
  [ simpl | simpl; try (apply deals_same; reflexivity) ].

Ltac leaf_plain :=
  eapply deals_step_commit;
  [ eassumption | reflexivity | reflexivity | left; split; reflexivity
  | reflexivity | reflexivity | ].

Ltac same_deals := apply deals_same; reflexivity.

Lemma start_cmd_deals cfg now u i s :
  deals_step cfg now (Start u i) s (snd (start_cmd cfg u i s)).
Proof.
  unfold start_cmd, seller_check. open_on_party s u i.
  destruct (ok && (user_id u =? Deal.seller_id d1)
            && String.eqb (Deal.status d1) PENDING_ACCEPT) eqn:T1; simpl;
    [|leaf_party].
  tests_to_props. leaf_commit. constructor; assumption.
Qed.

Lemma decline_cmd_deals cfg now u i s :
  deals_step cfg now (Decline u i) s (snd (decline_cmd u i s)).
Proof.
  unfold decline_cmd, seller_check. open_on_party s u i.
  destruct (negb (ok && (user_id u =? Deal.seller_id d1))) eqn:T1; simpl;
    [leaf_party|].
  destruct (negb (String.eqb (Deal.status d1) PENDING_ACCEPT
                  || String.eqb (Deal.status d1) AWAIT_FUNDS)) eqn:T2; simpl;
    [leaf_party|].
  tests_to_props.
  assert (Hst : Deal.status d1 = PENDING_ACCEPT
                \/ Deal.status d1 = AWAIT_FUNDS)
    by (destruct T2 as [T|T]; apply String.eqb_eq in T; auto).
  clear T2.
  destruct (String.eqb (Deal.status d1) AWAIT_FUNDS); simpl;
    (leaf_commit; apply acts_decline; assumption).
Qed.

Lemma status_cmd_deals cfg now u i s :
  deals_step cfg now (GetStatus u i) s (snd (status_cmd now u i s)).
Proof.
  unfold status_cmd. open_on_party s u i.
  destruct ok; simpl; [|leaf_party].
  destruct (maybe_autofinalise_spec now s1 d1) as [Hyes Hno].
  destruct (due_dec now s1 d1) as [Hd|Hd].
  - rewrite (Hyes Hd). simpl. leaf_commit. constructor.
    unfold due, open_disputes in *. rewrite <- Hdi. exact Hd.
  - rewrite (Hno Hd). simpl. leaf_party.
Qed.

Lemma confirm_amount_cmd_deals cfg now u i s :
  deals_step cfg now (ConfirmAmount u i) s (snd (confirm_amount_cmd u i s)).
Proof.
  unfold confirm_amount_cmd, seller_check. open_on_party s u i.
  destruct (negb (ok && (user_id u =? Deal.seller_id d1))); simpl;
    [leaf_party|].
  destruct (negb (String.eqb (Deal.status d1) FUNDED)); simpl; leaf_party.
Qed.

Lemma setpayout_cmd_deals cfg now u i a s :
  deals_step cfg now (SetPayout u i a) s (snd (setpayout_cmd u i a s)).
Proof.
  unfold setpayout_cmd, seller_check. open_on_party s u i.
  destruct (negb (ok && (user_id u =? Deal.seller_id d1))) eqn:T1; simpl;
    [leaf_party|].
  tests_to_props. leaf_commit. constructor; assumption.
Qed.

Lemma finalise_cmd_deals cfg now c i s :
  deals_step cfg now (Finalise c i) s (snd (finalise_cmd c i s)).
Proof.
  unfold finalise_cmd. open_plain s i.
  destruct (negb (String.eqb (Deal.status d) FUNDED)) eqn:T1; simpl;
    [same_deals|].
  destruct (negb (c =? Deal.buyer_id d)) eqn:T2; simpl; [same_deals|].
  destruct (negb (truthy (Deal.seller_payout_address d))) eqn:T3; simpl;
    [same_deals|].
  destruct (Qle_bool _ 0) eqn:T4; simpl; [same_deals|].
  tests_to_props. leaf_plain. constructor; auto.
  unfold SIMULATED_NETWORK_FEE_ASSET_UNITS in T4. lra.
Qed.

Lemma cancel_cmd_deals cfg now c i s :
  deals_step cfg now (CancelUnfunded c i) s (snd (cancel_cmd cfg c i s)).
Proof.
  unfold cancel_cmd. open_plain s i.
  destruct (negb (String.eqb (Deal.status d) AWAIT_FUNDS
                  || String.eqb (Deal.status d) CREATED)) eqn:T1; simpl;
    [same_deals|].
  destruct (negb (c =? Deal.buyer_id d) && negb (is_admin cfg c)) eqn:T2;
    simpl; [same_deals|].
  tests_to_props. leaf_plain. constructor.
  - destruct T1 as [T1|T1]; apply String.eqb_eq in T1; auto.
  - apply andb_false_iff in T2 as [T2|T2]; tests_to_props; auto.
Qed.

Lemma dispute_cmd_deals cfg now u i a s :
  deals_step cfg now (OpenDispute u i a) s (snd (dispute_cmd u i a s)).
Proof.
  unfold dispute_cmd. open_on_party s u i.
  destruct ok; simpl; [|leaf_party].
  destruct (negb (String.eqb (Deal.status d1) FUNDED)) eqn:T1; simpl;
    [leaf_party|].
  tests_to_props. leaf_commit. constructor; auto.
Qed.

Lemma collect_dispute_reason_deals cfg now u cap txt s :
  deals_step cfg now (CollectReason u cap txt) s
    (snd (collect_dispute_reason u cap txt s)).
Proof.
  unfold collect_dispute_reason.
  destruct (_pending_dispute_reason s !! user_id u) as [i|] eqn:Hp;
    [|same_deals].
  set (s0 := set_pending _ s).
  assert (Hs0 : deals s0 = deals s) by reflexivity.
  destruct (get_deal s0 i) as [d|] eqn:Hg; simpl; [|same_deals].
  assert (Hg' : get_deal s i = Some d) by exact Hg.
  pose proof (get_deal_id _ _ _ Hg') as Hi.
  destruct (ensure_party s0 u d) as [[ok d1] s1] eqn:E.
  destruct (ensure_party_binds _ _ _ _ _ _ E)
    as (Hb & Hid & Hdi & Hpe & Hde & Hpa).
  rewrite Hs0 in Hde.
  destruct ok; simpl.
  - eapply deals_step_commit;
      [ exact Hg' | unfold resolves; simpl; exact Hb | exact Hid | exact Hde
      | reflexivity | reflexivity | ].
    constructor; [auto|]. simpl. rewrite Hid, Hi. exact Hp.
  - eapply deals_step_party;
      [exact Hg'|unfold resolves; simpl; exact Hb|exact Hde].
Qed.

Lemma offer_cancel_deals cfg now a i s :
  deals_step cfg now (OfferCancel a i) s (snd (offer_cancel a i s)).
Proof.
  unfold offer_cancel. destruct a; simpl; [|same_deals].
  open_plain s i.
  destruct (negb (String.eqb (Deal.status d) PENDING_ACCEPT)) eqn:T1; simpl;
    [same_deals|].
  tests_to_props. leaf_plain. constructor; assumption.
Qed.

Lemma deal_resolve_deals cfg now a i act pct s :
  deals_step cfg now (Resolve a i act pct) s
    (snd (deal_resolve a i act pct s)).
Proof.
  unfold deal_resolve. destruct a; simpl; [|same_deals].
  open_plain s i.
  destruct (negb (String.eqb (Deal.status d) FUNDED
                  || String.eqb (Deal.status d) DISPUTED)) eqn:T1; simpl;
    [same_deals|].
  apply negb_false_iff, status_resolvable in T1.
  pose proof (get_deal_id _ _ _ Hg) as Hi.
  assert (Hc : forall o l d2 (s' : Store),
            deals (close_dispute o i l (commit d2 s)) = deals (commit d2 s))
    by (intros [x|] ? ? ?; reflexivity).
  destruct (String.eqb_spec act "release") as [->|_]; simpl.
  { eapply deals_step_commit;
      [ eassumption | reflexivity | reflexivity | left; split; reflexivity
      | apply (Hc _ _ _ s) | reflexivity | ].
    constructor; assumption. }
  destruct (String.eqb_spec act "refund") as [->|_]; simpl.
  { eapply deals_step_commit;
      [ eassumption | reflexivity | reflexivity | left; split; reflexivity
      | apply (Hc _ _ _ s) | reflexivity | ].
    constructor; assumption. }
  destruct (String.eqb_spec act "split") as [->|_]; simpl; [|same_deals].
  destruct pct as [sp|]; [|same_deals].
  destruct (Qle_bool sp 0 || Qle_bool 100 sp) eqn:T2; simpl; [same_deals|].
  tests_to_props.
  eapply deals_step_commit;
    [ eassumption | reflexivity | reflexivity | left; split; reflexivity
    | apply (Hc _ _ _ s) | reflexivity | ].
  apply (acts_split cfg now s i sp d T1); assumption.
Qed.

Lemma mark_funded_deals cfg now i n s :
  deals_step cfg now (MarkFunded i n) s (snd (mark_funded cfg now i n s)).
Proof.
  unfold mark_funded. open_plain s i.
  destruct (negb (String.eqb (Deal.status d) AWAIT_FUNDS)) eqn:T1; simpl;
    [same_deals|].
  destruct (n <? Deal.required_confs d) eqn:T2; simpl; [same_deals|].
  tests_to_props. leaf_plain. constructor; assumption.
Qed.

Lemma newdeal_cmd_deals cfg now u tag txt s :
  deals_step cfg now (Offer u tag txt) s (snd (newdeal_cmd cfg u tag txt s)).
Proof.
  unfold newdeal_cmd.
  destruct (well_formed_tag tag) eqn:T1; simpl; [|same_deals].
  destruct (parse_amount txt) as [amt|] eqn:T2; simpl; [|same_deals].
  eapply deals_new; [reflexivity|exact T1|exact T2|reflexivity].
Qed.

(** Every request does to the deals table what the relation says. *)
Lemma step_deals (cfg : Config) (now : Z) (c : Command) (s : Store) :
  deals_step cfg now c s (snd (step cfg now c s)).
Proof.
  destruct c; simpl;
    auto using newdeal_cmd_deals, start_cmd_deals, accept_cmd_deals,
      decline_cmd_deals, status_cmd_deals, confirm_amount_cmd_deals,
      setpayout_cmd_deals, finalise_cmd_deals, cancel_cmd_deals,
      dispute_cmd_deals, collect_dispute_reason_deals, offer_cancel_deals,
      deal_resolve_deals, mark_funded_deals.
Qed.

Lemma same_terms_refl (d : Deal.t) : same_terms d d.
Proof. unfold same_terms. repeat split. Qed.

Lemma binds_same_terms (u : TgUser) (d d1 : Deal.t) :
  binds u d d1 ->
  same_terms d d1 /\ Deal.status d1 = Deal.status d
  /\ Deal.pay_address d1 = Deal.pay_address d
  /\ (Deal.seller_id d1 = Deal.seller_id d
      \/ Deal.seller_id d = 0 /\ Deal.seller_id d1 = user_id u
         /\ user_id u <> 0 /\ user_id u <> Deal.buyer_id d).
Proof.
  intros [d0|d0 H0 Hb Hz Hm]; unfold same_terms; simpl; repeat split; auto.
Qed.

Lemma resolves_same_terms (c : Command) (d d1 : Deal.t) :
  resolves c d d1 ->
  same_terms d d1 /\ Deal.status d1 = Deal.status d
  /\ Deal.pay_address d1 = Deal.pay_address d
  /\ (Deal.seller_id d1 = Deal.seller_id d
      \/ Deal.seller_id d = 0 /\ Deal.seller_id d1 <> 0
         /\ Deal.seller_id d1 <> Deal.buyer_id d).
Proof.
  unfold resolves. destruct (party_of c) as [u|].
  - intros H.
    destruct (binds_same_terms _ _ _ H) as (? & ? & ? & [?|(? & ? & ? & ?)]).
    + split; [assumption|]. split; [assumption|]. split; [assumption|].
      left. assumption.
    + split; [assumption|]. split; [assumption|]. split; [assumption|].
      right. repeat split; congruence.
  - intros ->. split; [apply same_terms_refl|]. auto.
Qed.

Lemma acts_same_terms (cfg : Config) (now : Z) (s : Store) (c : Command)
    (d1 d2 : Deal.t) :
  acts cfg now s c d1 d2 ->
  same_terms d1 d2 /\ Deal.seller_id d2 = Deal.seller_id d1.
Proof.
  intros H; destruct H; unfold same_terms; simpl; repeat split; auto.
Qed.

Lemma same_terms_trans (a b c : Deal.t) :
  same_terms a b -> same_terms b c -> same_terms a c.
Proof.
  unfold same_terms. intros H1 H2.
  repeat match goal with H : _ /\ _ |- _ => destruct H end.
  repeat split; congruence.
Qed.

Lemma find_replace_at (k i : Z) (d : Deal.t) (l : list Deal.t) :
  Deal.id d = i ->
  find (fun r => Deal.id r =? k)
       (map (fun r => if Deal.id r =? i then d else r) l)
  = if k =? i
    then match find (fun r => Deal.id r =? k) l with
         | Some _ => Some d
         | None => None
         end
    else find (fun r => Deal.id r =? k) l.
Proof. intros <-. apply find_replace. Qed.

(** A stored deal after one request: as it was, or resolved and acted on. *)
Lemma deals_step_forward (cfg : Config) (now : Z) (c : Command)
    (s s' : Store) (k : Z) (x : Deal.t) :
  deals_step cfg now c s s' -> get_deal s k = Some x ->
  exists x',
    get_deal s' k = Some x'
    /\ (x' = x
        \/ exists x1, resolves c x x1 /\ acts cfg now s c x1 x').
Proof.
  intros [Hs|u tag txt amt _ _ _ Hs|i d d1 d2 Hg Hr Ha Hs] Hx.
  - exists x. split; [|auto]. unfold get_deal in *. rewrite Hs. exact Hx.
  - exists x. split; [|auto].
    pose proof (get_deal_add_deal (offer_row cfg s u tag amt) x s k Hx) as H.
    unfold get_deal in *. rewrite Hs. exact H.
  - pose proof (get_deal_id _ _ _ Hg) as Hi.
    destruct (resolves_same_terms _ _ _ Hr) as ((Hi1 & _) & _).
    destruct (acts_same_terms _ _ _ _ _ _ Ha) as ((Hi2 & _) & _).
    assert (Hd2 : Deal.id d2 = i) by congruence.
    unfold get_deal in *. rewrite Hs, (find_replace_at k i d2 _ Hd2).
    destruct (Z.eqb_spec k i) as [->|Hk].
    + rewrite Hx. exists d2. split; [reflexivity|].
      right. exists d1. split; [congruence|exact Ha].
    + exists x. auto.
Qed.

(** A row after one request: a row from before, the new offer, or a loaded
    row resolved and acted on. *)
Lemma deals_step_backward (cfg : Config) (now : Z) (c : Command)
    (s s' : Store) (x' : Deal.t) :
  deals_step cfg now c s s' -> In x' (deals s') ->
  In x' (deals s)
  \/ (exists u tag txt amt,
        c = Offer u tag txt /\ well_formed_tag tag = true
        /\ parse_amount txt = Some amt /\ x' = offer_row cfg s u tag amt)
  \/ (exists x x1, In x (deals s) /\ resolves c x x1
                   /\ acts cfg now s c x1 x').
Proof.
  intros [Hs|u tag txt amt Hc Ht Hp Hs|i d d1 d2 Hg Hr Ha Hs] Hin;
    rewrite Hs in Hin.
  - auto.
  - apply in_app_or in Hin as [Hin|[<-|[]]]; [auto|].
    right. left. exists u, tag, txt, amt. auto.
  - apply in_map_iff in Hin as (r & Hr' & Hin).
    destruct (Deal.id r =? i).
    + subst x'. right. right. exists d, d1. split; [|auto].
      unfold get_deal in Hg. apply find_some in Hg as [Hg _]. exact Hg.
    + subst x'. auto.
Qed.

(** What an action of the sources does to a status. *)
Lemma acts_status (cfg : Config) (now : Z) (s : Store) (c : Command)
    (d1 d2 : Deal.t) :
  acts cfg now s c d1 d2 -> from_sources c ->
  Deal.status d2 = Deal.status d1
  \/ transition (Deal.status d1) (Deal.status d2)
  \/ (exists u cap txt, c = CollectReason u cap txt)
     /\ Deal.status d2 = DISPUTED.
Proof.
  intros H Hc; destruct H; simpl; auto;
    try (right; left; unfold transition;
         repeat match goal with
                | H : _ \/ _ |- _ => destruct H
                | H : due _ _ _ |- _ => destruct H as (? & _)
                end; tauto).
  - right. right. split; [eauto|reflexivity].
  - contradiction.
Qed.

(** ** The status graph *)

(** X3.  Under every request the sources handle, a stored deal stays
    stored and its status stays or moves along an edge of the graph
    PENDING_ACCEPT -> AWAIT_FUNDS | CANCELLED, AWAIT_FUNDS -> CANCELLED,
    CREATED -> CANCELLED, FUNDED -> RELEASED | CANCELLED,
    DISPUTED -> RELEASED | CANCELLED; the collected reason alone moves it
    otherwise, to DISPUTED. *)
Theorem status_follows_the_graph (cfg : Config) (now : Z) (c : Command)
    (s : Store) (k : Z) (d : Deal.t) :
  from_sources c -> get_deal s k = Some d ->
  exists d',
    get_deal (snd (step cfg now c s)) k = Some d'
    /\ (Deal.status d' = Deal.status d
        \/ transition (Deal.status d) (Deal.status d')
        \/ (exists u cap txt, c = CollectReason u cap txt)
           /\ Deal.status d' = DISPUTED).
Proof.
  intros Hc Hg.
  destruct (deals_step_forward _ _ _ _ _ _ _ (step_deals cfg now c s) Hg)
    as (d' & Hd' & [->|(d1 & Hr & Ha)]).
  - exists d. auto.
  - exists d'. split; [exact Hd'|].
    destruct (resolves_same_terms _ _ _ Hr) as (_ & Hst & _).
    rewrite <- Hst. apply (acts_status _ _ _ _ _ _ Ha Hc).
Qed.

Lemma status_follows_the_graph_witness :
  exists d',
    get_deal (snd (step cfg0 20 (Accept alice 1) offered)) 1 = Some d'
    /\ transition (Deal.status offered_deal) (Deal.status d').
Proof.
  destruct (status_follows_the_graph cfg0 20 (Accept alice 1) offered 1
              offered_deal I) as (d' & Hd' & H).
  - vm_compute. reflexivity.
  - exists d'. split; [exact Hd'|].
    assert (Hs : Deal.status d' = AWAIT_FUNDS).
    { vm_compute in Hd'. inversion Hd'. reflexivity. }
    rewrite Hs. left. split; [reflexivity|left; reflexivity].
Defined.

(** ** The terms of a deal *)

Lemma step_same_terms (cfg : Config) (now : Z) (c : Command) (s : Store)
    (k : Z) (d : Deal.t) :
  get_deal s k = Some d ->
  exists d', get_deal (snd (step cfg now c s)) k = Some d' /\ same_terms d d'.
Proof.
  intros Hg.
  destruct (deals_step_forward _ _ _ _ _ _ _ (step_deals cfg now c s) Hg)
    as (d' & Hd' & [->|(d1 & Hr & Ha)]).
  - exists d. split; [exact Hd'|apply same_terms_refl].
  - exists d'. split; [exact Hd'|].
    destruct (resolves_same_terms _ _ _ Hr) as (H1 & _).
    destruct (acts_same_terms _ _ _ _ _ _ Ha) as (H2 & _).
    eapply same_terms_trans; eassumption.
Qed.

(** X4.  Whatever requests follow, a stored deal stays stored under its id
    with the terms of its offer: buyer, seller tag, asset, amount, fee
    policy (basis points and both bounds), required confirmations and hold
    transaction. *)
Theorem terms_never_change (cfg : Config) (cs : list (Z * Command))
    (s : Store) (k : Z) (d : Deal.t) :
  get_deal s k = Some d ->
  exists d', get_deal (run cfg cs s) k = Some d' /\ same_terms d d'.
Proof.
  revert s d. induction cs as [|[now c] r IH]; intros s d Hg; simpl.
  - exists d. split; [exact Hg|apply same_terms_refl].
  - destruct (step_same_terms cfg now c s k d Hg) as (d1 & Hd1 & H1).
    destruct (IH _ _ Hd1) as (d2 & Hd2 & H2).
    exists d2. split; [exact Hd2|]. eapply same_terms_trans; eassumption.
Qed.

Lemma terms_never_change_witness :
  exists d',
    get_deal (run cfg0 [(20, Accept alice 1); (30, MarkFunded 1 1)] offered) 1
      = Some d'
    /\ same_terms offered_deal d'.
Proof.
  apply (terms_never_change cfg0 [(20, Accept alice 1); (30, MarkFunded 1 1)]
           offered 1 offered_deal).
  vm_compute. reflexivity.
Defined.

(** ** What holds of every stored deal *)

Lemma next_id_positive (ids : list Z) : 1 <= next_id ids.
Proof.
  unfold next_id.
  assert (0 <= fold_right Z.max 0 ids); [|lia].
  induction ids as [|x l IH]; simpl; lia.
Qed.

Lemma parse_amount_positive (txt : option Q) (amt : Q) :
  parse_amount txt = Some amt -> (0 < amt)%Q /\ txt = Some amt.
Proof.
  unfold parse_amount. destruct txt as [q|]; [|discriminate].
  destruct (Qle_bool q 0) eqn:E; [discriminate|].
  intros H; inversion H; subst. split; [|reflexivity].
  apply Qle_bool_false_iff, E.
Qed.

Lemma acts_known_status (cfg : Config) (now : Z) (s : Store) (c : Command)
    (d1 d2 : Deal.t) :
  acts cfg now s c d1 d2 ->
  known_status (Deal.status d1) -> known_status (Deal.status d2).
Proof.
  intros H; destruct H; simpl; auto; intros _; unfold known_status; tauto.
Qed.

Lemma step_deal_ok (cfg : Config) (now : Z) (c : Command) (s : Store) :
  (forall u tag txt, c = Offer u tag txt -> user_id u <> 0) ->
  Forall deal_ok (deals s) ->
  Forall deal_ok (deals (snd (step cfg now c s))).
Proof.
  intros Hu Hall. rewrite List.Forall_forall in *. intros x' Hin.
  destruct (deals_step_backward _ _ _ _ _ _ (step_deals cfg now c s) Hin)
    as [Hold|[(u & tag & txt & amt & Hc & Ht & Hp & ->)
             |(x & x1 & Hx & Hr & Ha)]].
  - apply Hall, Hold.
  - destruct (parse_amount_positive _ _ Hp) as [Hpos _].
    pose proof (Hu _ _ _ Hc) as Hnz.
    unfold deal_ok, offer_row; simpl.
    split; [exact Hpos|]. split; [eauto|].
    split; [left; reflexivity|]. split; [exact Hnz|].
    split; [exact Hnz|apply next_id_positive].
  - destruct (Hall _ Hx) as (Ham & Htag & Hst & Hb & Hbs & Hid).
    destruct (resolves_same_terms _ _ _ Hr)
      as ((Hi1 & Hb1 & Hu1 & _ & Ha1 & _) & Hst1 & _ & Hs1).
    destruct (acts_same_terms _ _ _ _ _ _ Ha)
      as ((Hi2 & Hb2 & Hu2 & _ & Ha2 & _) & Hs2).
    unfold deal_ok.
    split; [rewrite Ha2, Ha1; exact Ham|].
    split; [rewrite Hu2, Hu1; exact Htag|].
    split.
    { apply (acts_known_status _ _ _ _ _ _ Ha). rewrite Hst1. exact Hst. }
    split; [congruence|]. split; [|congruence].
    rewrite Hb2, Hb1, Hs2.
    destruct Hs1 as [->|(_ & _ & Hne)]; [exact Hbs|congruence].
Qed.

Lemma run_deal_ok (cfg : Config) (cs : list (Z * Command)) (s : Store) :
  offers_by_users cs ->
  Forall deal_ok (deals s) -> Forall deal_ok (deals (run cfg cs s)).
Proof.
  revert s. induction cs as [|[now c] r IH]; intros s Hu Hall; simpl;
    [exact Hall|].
  apply IH.
  - intros n u tag txt Hin. apply (Hu n u tag txt). right. exact Hin.
  - apply step_deal_ok; [|exact Hall].
    intros u tag txt ->. apply (Hu now u tag txt). left. reflexivity.
Qed.

(** X5.  In every state reached from the empty database by requests whose
    offers come from users with an id other than 0, every stored deal has a
    positive amount, a well-formed seller tag, one of the six statuses the
    handlers write (never CREATED, never a misspelt status), a buyer, and a
    seller who is not the buyer. *)
Theorem stored_deals_are_well_formed (cfg : Config) (cs : list (Z * Command))
    (k : Z) (d : Deal.t) :
  offers_by_users cs ->
  get_deal (run cfg cs empty_store) k = Some d ->
  deal_ok d /\ Deal.id d = k.
Proof.
  intros Hu Hg. split; [|apply (get_deal_id _ _ _ Hg)].
  pose proof (run_deal_ok cfg cs empty_store Hu (List.Forall_nil _)) as Hall.
  rewrite List.Forall_forall in Hall. apply Hall.
  unfold get_deal in Hg. apply find_some in Hg as [Hg _]. exact Hg.
Qed.

Lemma stored_deals_are_well_formed_witness :
  deal_ok payable_deal /\ Deal.id payable_deal = 1.
Proof.
  apply (stored_deals_are_well_formed cfg0
           [(10, Offer bob "@alice" (Some (1 # 100)%Q));
            (20, Accept alice 1); (30, MarkFunded 1 1);
            (40, SetPayout alice 1 "bc1qalice")] 1 payable_deal).
  - intros now u tag txt [H|[H|[H|[H|[]]]]]; inversion H; subst.
    simpl. lia.
  - vm_compute. reflexivity.
Defined.

(** ** Offers *)

Lemma below_next_id (l : list Deal.t) (r : Deal.t) :
  In r l -> Deal.id r < next_id (map Deal.id l).
Proof.
  unfold next_id. induction l as [|x l IH]; simpl; [contradiction|].
  intros [->|H]; [lia|]. specialize (IH H). lia.
Qed.

Lemma next_id_is_free (s : Store) :
  get_deal s (next_id (map Deal.id (deals s))) = None.
Proof.
  unfold get_deal.
  destruct (find _ (deals s)) as [r|] eqn:F; [|reflexivity].
  apply find_some in F as [Hin Hid].
  pose proof (below_next_id _ _ Hin). lia.
Qed.

Lemma get_deal_add_new (d : Deal.t) (s : Store) :
  get_deal s (Deal.id d) = None ->
  get_deal (add_deal d s) (Deal.id d) = Some d.
Proof.
  unfold get_deal, add_deal; simpl.
  induction (deals s) as [|r l IH]; simpl.
  - rewrite Z.eqb_refl. reflexivity.
  - destruct (Deal.id r =? Deal.id d); [discriminate|exact IH].
Qed.

(** X6.  An offer with a malformed tag fails with InvalidTag and one whose
    amount does not parse or is not positive with InvalidAmount, the
    database unchanged.  Otherwise it answers with an id that no deal had,
    stores under it a PENDING_ACCEPT deal of the caller with the seller
    unbound, the amount and the fee policy of the environment, and leaves
    every other deal, the disputes and the pending reasons as they were. *)
Theorem newdeal_cmd_correct (cfg : Config) (u : TgUser) (tag : string)
    (txt : option Q) (s : Store) :
  let r := newdeal_cmd cfg u tag txt s in
  let i := next_id (map Deal.id (deals s)) in
  (well_formed_tag tag = false -> r = (Failed InvalidTag, s))
  /\ (well_formed_tag tag = true -> txt = None ->
      r = (Failed InvalidAmount, s))
  /\ (forall amt, well_formed_tag tag = true -> txt = Some amt ->
        (amt <= 0)%Q -> r = (Failed InvalidAmount, s))
  /\ (forall amt, well_formed_tag tag = true -> txt = Some amt ->
        (0 < amt)%Q ->
        fst r = Created i
        /\ get_deal s i = None
        /\ get_deal (snd r) i
           = Some (Deal.mk i (user_id u) 0 (Some tag) "BTC" amt (FEE_BP cfg)
                     (FEE_MIN_CAD cfg) (FEE_MAX_CAD cfg) PENDING_ACCEPT None
                     0 (REQUIRED_CONFS cfg) None None None None None None)
        /\ (forall k x, get_deal s k = Some x -> get_deal (snd r) k = Some x)
        /\ disputes (snd r) = disputes s
        /\ _pending_dispute_reason (snd r) = _pending_dispute_reason s).
Proof.
  intros r i. unfold r, newdeal_cmd.
  split; [intros ->; reflexivity|].
  split; [intros -> ->; reflexivity|].
  split.
  - intros amt -> -> Hle. simpl.
    apply Qle_bool_iff in Hle. rewrite Hle. reflexivity.
  - intros amt -> -> Hpos. simpl.
    apply Qle_bool_false_iff in Hpos. rewrite Hpos. simpl.
    split; [reflexivity|]. split; [apply next_id_is_free|].
    split; [|split; [|split; reflexivity]].
    + apply (get_deal_add_new
               (Deal.mk i (user_id u) 0 (Some tag) "BTC" amt (FEE_BP cfg)
                  (FEE_MIN_CAD cfg) (FEE_MAX_CAD cfg) PENDING_ACCEPT None
                  0 (REQUIRED_CONFS cfg) None None None None None None) s).
      apply next_id_is_free.
    + intros k x Hx. apply get_deal_add_deal, Hx.
Qed.

Lemma newdeal_cmd_correct_witness :
  fst (newdeal_cmd cfg0 bob "@alice" (Some (1 # 100)%Q) empty_store)
  = Created 1
  /\ newdeal_cmd cfg0 bob "alice" (Some (1 # 100)%Q) empty_store
     = (Failed InvalidTag, empty_store)
  /\ newdeal_cmd cfg0 bob "@alice" (Some (0 # 1)%Q) empty_store
     = (Failed InvalidAmount, empty_store).
Proof.
  destruct (newdeal_cmd_correct cfg0 bob "@alice" (Some (1 # 100)%Q)
              empty_store) as (_ & _ & _ & H4).
  destruct (newdeal_cmd_correct cfg0 bob "alice" (Some (1 # 100)%Q)
              empty_store) as (H1 & _).
  destruct (newdeal_cmd_correct cfg0 bob "@alice" (Some (0 # 1)%Q)
              empty_store) as (_ & _ & H3 & _).
  split; [|split].
  - apply (H4 (1 # 100)%Q); reflexivity.
  - apply H1. reflexivity.
  - apply (H3 (0 # 1)%Q); try reflexivity. vm_compute. discriminate.
Defined.

(** ** Acceptance *)

(** X7.  The deep link and the accept command are one operation: on every
    input they leave the same database, and one accepts exactly when the
    other does. *)
Theorem start_cmd_is_accept_cmd (cfg : Config) (u : TgUser) (i : Z)
    (s : Store) :
  snd (start_cmd cfg u i s) = snd (accept_cmd cfg u i s)
  /\ (fst (start_cmd cfg u i s) = Accepted
      <-> fst (accept_cmd cfg u i s) = Accepted).
Proof.
  unfold start_cmd, accept_cmd.
  destruct (get_deal s i) as [d|]; [|split; [reflexivity|split; discriminate]].
  destruct (seller_check s u d) as [[ok d1] s1].
  destruct ok; simpl;
    [|split; [reflexivity|split; discriminate]].
  destruct (String.eqb (Deal.status d1) PENDING_ACCEPT); simpl;
    split; try reflexivity; split; auto; discriminate.
Qed.

(** A seller's command, for a caller the seller's guard refuses. *)
Lemma seller_commands_refuse (cfg : Config) (u : TgUser) (i : Z) (s : Store)
    (d d1 : Deal.t) (s1 : Store) :
  get_deal s i = Some d -> seller_check s u d = (false, d1, s1) ->
  forall addr,
    accept_cmd cfg u i s = (Failed Forbidden, s1)
    /\ start_cmd cfg u i s = (Online, s1)
    /\ decline_cmd u i s = (Failed Forbidden, s1)
    /\ confirm_amount_cmd u i s = (Failed Forbidden, s1)
    /\ setpayout_cmd u i addr s = (Failed Forbidden, s1).
Proof.
  intros Hg Hs addr.
  unfold accept_cmd, start_cmd, decline_cmd, confirm_amount_cmd,
    setpayout_cmd.
  rewrite Hg, Hs. simpl. repeat split.
Qed.

(** X8.  The buyer cannot act as the seller of a deal whose seller is
    another identity or unbound: accept, the deep link, decline,
    confirmamount and setpayout all refuse the buyer and leave the database
    as it was, even when the buyer's own handle matches the seller tag. *)
Theorem buyer_cannot_act_as_seller (cfg : Config) (u : TgUser) (i : Z)
    (s : Store) (d : Deal.t) :
  get_deal s i = Some d ->
  user_id u = Deal.buyer_id d -> Deal.buyer_id d <> Deal.seller_id d ->
  forall addr,
    accept_cmd cfg u i s = (Failed Forbidden, s)
    /\ start_cmd cfg u i s = (Online, s)
    /\ decline_cmd u i s = (Failed Forbidden, s)
    /\ confirm_amount_cmd u i s = (Failed Forbidden, s)
    /\ setpayout_cmd u i addr s = (Failed Forbidden, s).
Proof.
  intros Hg Hu Hne. apply (seller_commands_refuse cfg u i s d d s Hg).
  unfold seller_check, ensure_party.
  rewrite Hu, Z.eqb_refl. simpl.
  destruct (Z.eqb_spec (Deal.buyer_id d) (Deal.seller_id d));
    [contradiction|reflexivity].
Qed.

Lemma buyer_cannot_act_as_seller_witness :
  accept_cmd cfg0 (mkUser 1 (Some "alice")) 1 offered
  = (Failed Forbidden, offered).
Proof.
  apply (buyer_cannot_act_as_seller cfg0 (mkUser 1 (Some "alice")) 1 offered
           offered_deal).
  - vm_compute. reflexivity.
  - reflexivity.
  - simpl. lia.
  - exact "bc1q".
Defined.
